(** * FastNoiseCL: the noise configuration of [FastNoiseCL.h]

    A shallow embedding of the class [FastNoiseCL] declared in
    [FastNoiseCL/FastNoiseCL.h]: its configuration fields, the inline
    setters, the constructors, the destructor and the private helper
    [CalculateFractalBounding].

    C++ [float] is IEEE-754 binary32.  Its values are the [spec_float]s of
    the standard library that satisfy [valid_binary 24 128]; the
    operations are the correctly rounded (nearest, ties to even) ones of
    [SpecFloat], instantiated at precision 24 and maximal exponent 128.
    Every [float] operation is taken to round to binary32 at once, with no
    excess precision kept between operations.  C++ [int] and
    [unsigned int] are 32 bits wide.

    The evaluation operations are declared in the header and defined
    elsewhere; the last part of the definitions describes them as the
    specification does. *)

From Stdlib Require Import ZArith Bool Lia.
From Stdlib Require Import Floats.SpecFloat.
From stdpp Require Import base option list gmap.
From Equations Require Import Equations.
From Equations.Prop Require Import Logic.

Local Open Scope Z_scope.

(** ** binary32 arithmetic *)

Module F32.

Definition prec : Z := 24.
Definition emax : Z := 128.

Definition float32 : Type := spec_float.

Definition valid (x : float32) : bool := valid_binary prec emax x.

Definition add (x y : float32) : float32 := SFadd prec emax x y.
Definition mul (x y : float32) : float32 := SFmul prec emax x y.
Definition div (x y : float32) : float32 := SFdiv prec emax x y.

(** Conversion of an integer, as in the C++ cast [(float) i]. *)
Definition of_Z (i : Z) : float32 := binary_normalize prec emax i 0 false.

(** The literals of the header.  Each is the binary32 number nearest to
    the decimal written in the source. *)
Definition zero : float32 := S754_zero false.
Definition one : float32 := S754_finite false 8388608 (-23).
Definition two : float32 := S754_finite false 8388608 (-22).
Definition half : float32 := S754_finite false 8388608 (-24).
Definition c0_45 : float32 := S754_finite false 15099494 (-25).
Definition c0_01 : float32 := S754_finite false 10737418 (-30).

(** The [double] literal [0.45], and the conversion of a finite [double]
    to [float] that passing it for a [float] parameter performs. *)
Definition d0_45 : spec_float := S754_finite false 8106479329266893 (-54).
Definition of_double (d : spec_float) : float32 :=
  match d with
  | S754_finite s m e => binary_normalize prec emax (cond_Zopp s (Z.pos m)) e s
  | _ => d
  end.

End F32.

Abbreviation float32 := F32.float32.

(** ** 32-bit integers *)

Definition int_min : Z := - 2 ^ 31.
Definition int_max : Z := 2 ^ 31 - 1.
Definition in_int (z : Z) : Prop := int_min <= z <= int_max.

(** The conversion [int -> unsigned int] of the usual arithmetic
    conversions: the value modulo [2^32]. *)
Definition to_unsigned (z : Z) : Z := z mod 2 ^ 32.

(** ** CalculateFractalBounding *)

(** The [for] loop of [CalculateFractalBounding]:
    [for (unsigned int i = 1; i < m_octaves; i++) { ampFractal += amp; amp *= m_gain; }]
    where [u] is [m_octaves] converted to [unsigned int] for the
    comparison.  It returns the final [(amp, ampFractal)]. *)
Equations? bounding_loop (gain : float32) (u i : Z) (amp ampFractal : float32)
  : float32 * float32 by wf (Z.to_nat (u - i)) lt :=
  bounding_loop gain u i amp ampFractal with Z_lt_dec i u := {
    | left _ := bounding_loop gain u (i + 1) (F32.mul amp gain) (F32.add ampFractal amp);
    | right _ := (amp, ampFractal) }.
Proof. lia. Qed.

(** The value assigned to [m_fractalBounding], as a function of the two
    fields the method reads. *)
Definition fractal_bounding (gain : float32) (octaves : Z) : float32 :=
  let amp := gain in
  let ampFractal := F32.one in
  let '(_, ampFractal) := bounding_loop gain (to_unsigned octaves) 1 amp ampFractal in
  F32.div F32.one ampFractal.

(** ** The enumerations of the class *)

Inductive NoiseType :=
  Value | ValueFractal | Perlin | PerlinFractal | Simplex | SimplexFractal | Cellular | WhiteNoise.
Inductive Interp := Linear | Hermite | Quintic.
Inductive FractalType := FBM | Billow | RigidMulti.
Inductive CellularDistanceFunction := Euclidean | Manhattan | Natural.
Inductive CellularReturnType :=
  CellValue | NoiseLookup | Distance | Distance2 | Distance2Add | Distance2Sub | Distance2Mul | Distance2Div.

(** [enum PerturbType { None, Single, Fractal }]: kept in a module of its
    own, since its first enumerator has the name of [option]'s. *)
Module PerturbType.
Inductive t := None | Single | Fractal.
End PerturbType.

(** ** The object *)

(** Addresses of heap-allocated [FastNoiseCL] objects; a null pointer is
    [None]. *)
Definition addr : Type := positive.

(** The data members, in the order of their declaration.  [kernel_adapter]
    is a [std::unique_ptr<KernelAdapter>]; the adapter class is declared
    in [KernelAdapter.hpp], and the model keeps only a handle to it. *)
Record FastNoiseCL := mkFastNoiseCL {
  m_seed : Z;
  m_frequency : float32;
  m_interp : Interp;
  m_noiseType : NoiseType;
  m_octaves : Z;
  m_lacunarity : float32;
  m_gain : float32;
  m_fractalType : FractalType;
  m_fractalBounding : float32;
  m_cellularDistanceFunction : CellularDistanceFunction;
  m_cellularReturnType : CellularReturnType;
  m_cellularNoiseLookup : option addr;
  m_perturbAmp : float32;
  m_perturb : PerturbType.t;
  kernel_adapter : option positive
}.

(** [RangeContainer<T>], with [Range] and [RangeInt] its two instances.
    The struct has a module of its own, so that its member [size] does not
    hide the size of finite maps. *)
Module RangeContainer.
Record t (T : Type) := mk { size : nat; offset : T; step : T }.
Arguments mk {T} _ _ _.
Arguments size {T} _.
Arguments offset {T} _.
Arguments step {T} _.

(** [RangeContainer& operator= (RangeContainer& r)]: the left operand
    after the assignment. *)
Definition assign {T} (this r : t T) : t T := mk (size r) (offset r) (step r).
End RangeContainer.

Definition Range : Type := RangeContainer.t float32.
Definition RangeInt : Type := RangeContainer.t Z.

(** ** Setters and the getter *)

(** Modelled from the spec: [SetSeed] is declared in the header and its
    body is missing; section 3 has the seed as one integer field and
    [GetSeed] returns [m_seed], so the setter stores its argument
    there. *)
Definition SetSeed (seed : Z) (s : FastNoiseCL) : FastNoiseCL :=
  mkFastNoiseCL seed (m_frequency s) (m_interp s) (m_noiseType s)
    (m_octaves s) (m_lacunarity s) (m_gain s) (m_fractalType s) (m_fractalBounding s)
    (m_cellularDistanceFunction s) (m_cellularReturnType s) (m_cellularNoiseLookup s)
    (m_perturbAmp s) (m_perturb s) (kernel_adapter s).

(** [int GetSeed(void) const]: the value returned and the object after the
    call. *)
Definition GetSeed (s : FastNoiseCL) : Z * FastNoiseCL := (m_seed s, s).

Definition SetFrequency (frequency : float32) (s : FastNoiseCL) : FastNoiseCL :=
  mkFastNoiseCL (m_seed s) frequency (m_interp s) (m_noiseType s)
    (m_octaves s) (m_lacunarity s) (m_gain s) (m_fractalType s) (m_fractalBounding s)
    (m_cellularDistanceFunction s) (m_cellularReturnType s) (m_cellularNoiseLookup s)
    (m_perturbAmp s) (m_perturb s) (kernel_adapter s).

Definition SetInterp (interp : Interp) (s : FastNoiseCL) : FastNoiseCL :=
  mkFastNoiseCL (m_seed s) (m_frequency s) interp (m_noiseType s)
    (m_octaves s) (m_lacunarity s) (m_gain s) (m_fractalType s) (m_fractalBounding s)
    (m_cellularDistanceFunction s) (m_cellularReturnType s) (m_cellularNoiseLookup s)
    (m_perturbAmp s) (m_perturb s) (kernel_adapter s).

Definition SetNoiseType (noiseType : NoiseType) (s : FastNoiseCL) : FastNoiseCL :=
  mkFastNoiseCL (m_seed s) (m_frequency s) (m_interp s) noiseType
    (m_octaves s) (m_lacunarity s) (m_gain s) (m_fractalType s) (m_fractalBounding s)
    (m_cellularDistanceFunction s) (m_cellularReturnType s) (m_cellularNoiseLookup s)
    (m_perturbAmp s) (m_perturb s) (kernel_adapter s).

(** [void CalculateFractalBounding()]: reads [m_gain] and [m_octaves],
    writes [m_fractalBounding]. *)
Definition CalculateFractalBounding (s : FastNoiseCL) : FastNoiseCL :=
  mkFastNoiseCL (m_seed s) (m_frequency s) (m_interp s) (m_noiseType s)
    (m_octaves s) (m_lacunarity s) (m_gain s) (m_fractalType s)
    (fractal_bounding (m_gain s) (m_octaves s))
    (m_cellularDistanceFunction s) (m_cellularReturnType s) (m_cellularNoiseLookup s)
    (m_perturbAmp s) (m_perturb s) (kernel_adapter s).

Definition SetFractalOctaves (octaves : Z) (s : FastNoiseCL) : FastNoiseCL :=
  CalculateFractalBounding
    (mkFastNoiseCL (m_seed s) (m_frequency s) (m_interp s) (m_noiseType s)
       octaves (m_lacunarity s) (m_gain s) (m_fractalType s) (m_fractalBounding s)
       (m_cellularDistanceFunction s) (m_cellularReturnType s) (m_cellularNoiseLookup s)
       (m_perturbAmp s) (m_perturb s) (kernel_adapter s)).

Definition SetFractalLacunarity (lacunarity : float32) (s : FastNoiseCL) : FastNoiseCL :=
  mkFastNoiseCL (m_seed s) (m_frequency s) (m_interp s) (m_noiseType s)
    (m_octaves s) lacunarity (m_gain s) (m_fractalType s) (m_fractalBounding s)
    (m_cellularDistanceFunction s) (m_cellularReturnType s) (m_cellularNoiseLookup s)
    (m_perturbAmp s) (m_perturb s) (kernel_adapter s).

Definition SetFractalGain (gain : float32) (s : FastNoiseCL) : FastNoiseCL :=
  CalculateFractalBounding
    (mkFastNoiseCL (m_seed s) (m_frequency s) (m_interp s) (m_noiseType s)
       (m_octaves s) (m_lacunarity s) gain (m_fractalType s) (m_fractalBounding s)
       (m_cellularDistanceFunction s) (m_cellularReturnType s) (m_cellularNoiseLookup s)
       (m_perturbAmp s) (m_perturb s) (kernel_adapter s)).

Definition SetFractalType (fractalType : FractalType) (s : FastNoiseCL) : FastNoiseCL :=
  mkFastNoiseCL (m_seed s) (m_frequency s) (m_interp s) (m_noiseType s)
    (m_octaves s) (m_lacunarity s) (m_gain s) fractalType (m_fractalBounding s)
    (m_cellularDistanceFunction s) (m_cellularReturnType s) (m_cellularNoiseLookup s)
    (m_perturbAmp s) (m_perturb s) (kernel_adapter s).

Definition SetCellularDistanceFunction
    (cellularDistanceFunction : CellularDistanceFunction) (s : FastNoiseCL) : FastNoiseCL :=
  mkFastNoiseCL (m_seed s) (m_frequency s) (m_interp s) (m_noiseType s)
    (m_octaves s) (m_lacunarity s) (m_gain s) (m_fractalType s) (m_fractalBounding s)
    cellularDistanceFunction (m_cellularReturnType s) (m_cellularNoiseLookup s)
    (m_perturbAmp s) (m_perturb s) (kernel_adapter s).

Definition SetCellularReturnType
    (cellularReturnType : CellularReturnType) (s : FastNoiseCL) : FastNoiseCL :=
  mkFastNoiseCL (m_seed s) (m_frequency s) (m_interp s) (m_noiseType s)
    (m_octaves s) (m_lacunarity s) (m_gain s) (m_fractalType s) (m_fractalBounding s)
    (m_cellularDistanceFunction s) cellularReturnType (m_cellularNoiseLookup s)
    (m_perturbAmp s) (m_perturb s) (kernel_adapter s).

(** [void SetCellularNoiseLookup(FastNoiseCL* noise)]: the pointer is
    stored; the object it replaces is neither read nor released. *)
Definition SetCellularNoiseLookup (noise : option addr) (s : FastNoiseCL) : FastNoiseCL :=
  mkFastNoiseCL (m_seed s) (m_frequency s) (m_interp s) (m_noiseType s)
    (m_octaves s) (m_lacunarity s) (m_gain s) (m_fractalType s) (m_fractalBounding s)
    (m_cellularDistanceFunction s) (m_cellularReturnType s) noise
    (m_perturbAmp s) (m_perturb s) (kernel_adapter s).

Definition SetPerturbAmp (perturbAmp : float32) (s : FastNoiseCL) : FastNoiseCL :=
  mkFastNoiseCL (m_seed s) (m_frequency s) (m_interp s) (m_noiseType s)
    (m_octaves s) (m_lacunarity s) (m_gain s) (m_fractalType s) (m_fractalBounding s)
    (m_cellularDistanceFunction s) (m_cellularReturnType s) (m_cellularNoiseLookup s)
    (F32.div perturbAmp F32.c0_45) (m_perturb s) (kernel_adapter s).

Definition SetPeturbType (perturb : PerturbType.t) (s : FastNoiseCL) : FastNoiseCL :=
  mkFastNoiseCL (m_seed s) (m_frequency s) (m_interp s) (m_noiseType s)
    (m_octaves s) (m_lacunarity s) (m_gain s) (m_fractalType s) (m_fractalBounding s)
    (m_cellularDistanceFunction s) (m_cellularReturnType s) (m_cellularNoiseLookup s)
    (m_perturbAmp s) perturb (kernel_adapter s).

(** ** Construction *)

(** The default member initialisers.  [m_fractalBounding] has none: its
    value before the constructor body runs is indeterminate and is taken
    as the argument [indeterminate]. *)
Definition member_init (indeterminate : float32) : FastNoiseCL :=
  mkFastNoiseCL 1337 F32.c0_01 Quintic Simplex
    3 F32.two F32.half FBM indeterminate
    Euclidean CellValue None
    (F32.div F32.one F32.c0_45) PerturbType.None None.

(** The default argument [int seed = 1337] of both constructors. *)
Definition default_seed : Z := 1337.

(** [FastNoiseCL(int seed = 1337)], "create as NoiseLookup". *)
Definition FastNoiseCL_lookup (indeterminate : float32) (seed : Z) : FastNoiseCL :=
  CalculateFractalBounding (SetSeed seed (member_init indeterminate)).

Section Generator.
(** [Device] comes from [DeviceManager.hpp] and the private
    [PrepareDevice] is only declared in the header: both are taken as
    parameters. *)
Variable Device : Type.
Variable PrepareDevice : Device -> FastNoiseCL -> FastNoiseCL.

(** [FastNoiseCL(Device& device, int seed = 1337)], "create as noise
    generator". *)
Definition FastNoiseCL_generator (indeterminate : float32) (device : Device) (seed : Z)
  : FastNoiseCL :=
  PrepareDevice device (CalculateFractalBounding (SetSeed seed (member_init indeterminate))).
End Generator.

(** ** Destruction *)

(** The free store holds the live heap-allocated [FastNoiseCL] objects.
    [delete p] on a null pointer does nothing; on the address of a live
    object it ends the object's lifetime, runs the destructor body
    [delete m_cellularNoiseLookup] and releases the storage; on any other
    pointer (dangling, or already being destroyed) the behaviour is
    undefined, which is the result [None].  The destruction of the members
    that follows the body releases the kernel adapter, which is no
    [FastNoiseCL] object and does not show in this store. *)
Equations? delete_FastNoiseCL (h : gmap addr FastNoiseCL) (p : option addr)
  : option (gmap addr FastNoiseCL) by wf (size h) lt :=
  delete_FastNoiseCL h None := Some h;
  delete_FastNoiseCL h (Some a) with inspect (h !! a) := {
    | exist _ None _ := None;
    | exist _ (Some o) _ := delete_FastNoiseCL (delete a h) (m_cellularNoiseLookup o) }.
Proof.
  assert (Hne : h <> ∅) by (intros ->; by rewrite lookup_empty in e).
  apply map_size_non_empty_iff in Hne.
  rewrite map_size_delete, e. simpl. lia.
Qed.

(** [~FastNoiseCL() { delete m_cellularNoiseLookup; }] run on the object
    [this], with the free store before and after. *)
Definition destroy_FastNoiseCL (h : gmap addr FastNoiseCL) (this : FastNoiseCL)
  : option (gmap addr FastNoiseCL) :=
  delete_FastNoiseCL h (m_cellularNoiseLookup this).

(** ** Evaluation *)

(** The evaluation operations ([GetValue] ... [GetNoise]) are declared in
    the header; their bodies and the device kernels they launch are
    defined outside it.  What follows is their description in the
    specification, sections 3 to 5 and 7. *)

(** Modelled from the spec: the i-th sample of an axis, "offset + i*step"
    (section 3); the body of the kernels is missing. *)
Definition axis_sample (r : Range) (i : nat) : float32 :=
  F32.add (RangeContainer.offset r)
          (F32.mul (F32.of_Z (Z.of_nat i)) (RangeContainer.step r)).

(** Modelled from the spec: the samples of one axis, "for i in [0, count)"
    (section 3); the body of the kernels is missing. *)
Definition axis_samples (r : Range) : list float32 :=
  axis_sample r <$> seq 0 (RangeContainer.size r).

(** Modelled from the spec: the grid is the Cartesian product of its axes,
    flattened with the first axis running fastest, "output[i + 2*j]
    corresponds to axis-x sample i, axis-y sample j" (sections 3 and 8);
    the flattening code is missing. *)
Fixpoint grid_points (axes : list Range) : list (list float32) :=
  match axes with
  | [] => [[]]
  | r :: rest => flat_map (fun q => (fun x => x :: q) <$> axis_samples r) (grid_points rest)
  end.

(** Modelled from the spec: "frequency (scales every coordinate before
    evaluation)" (section 3); the kernels are missing. *)
Definition scale (frequency : float32) (p : list float32) : list float32 :=
  (fun x => F32.mul x frequency) <$> p.

(** Modelled from the spec: the per-octave seed "seed + i" (section 4.4)
    is an [int]; the sum is taken with two's complement wrap-around.  The
    kernels are missing. *)
Definition wrap_int (z : Z) : Z := (z + 2 ^ 31) mod 2 ^ 32 - 2 ^ 31.

(** The outcome of an evaluation call: the dense output array, or one of
    the two error kinds of section 7. *)
Inductive evaluation :=
| Output (values : list float32)
| ConfigurationError
| BackendError.

(** What the resolver knows about the cells around a point: the hash of the
    nearest cell, its representative coordinate, and the distances to the
    nearest and to the second-nearest cell centre. *)
Record cells := mkCells {
  cell_hash : float32;
  cell_position : list float32;
  distance : float32;
  distance2 : float32
}.

Section Evaluation.
(** The base primitive of a family, a function of seed, interpolation
    mode and scaled coordinate; the search for the two nearest cell
    centres; the per-point generic [GetNoise] of a secondary
    configuration.  Section 1 leaves their arithmetic open. *)
Variable primitive : Z -> Interp -> list float32 -> float32.
Variable nearest : Z -> CellularDistanceFunction -> list float32 -> cells.
Variable point_noise : FastNoiseCL -> list float32 -> float32.

(** The compute backend: unavailable ([None]), or a device that runs the
    [n] work items of a call in the order [schedule n]. *)
Variable backend : option (nat -> list nat).

(** The per-point kernels of the families other than the cellular one, by
    family. *)
Variable typed_kernel : NoiseType -> FastNoiseCL -> list float32 -> float32.

(** Modelled from the spec: a typed single-primitive evaluation at one
    point (sections 3 and 4.3); the kernel is missing. *)
Definition Base (s : FastNoiseCL) (p : list float32) : float32 :=
  primitive (m_seed s) (m_interp s) (scale (m_frequency s) p).

(** Modelled from the spec: the octave contributions of FBM,
    "amp*primitive(seed_i, coord*freq_i) for i = 0..O-1, with freq_0 =
    frequency, freq_(i+1) = freq_i*L, amp_0 = 1, amp_(i+1) = amp_i*G",
    the seed of octave i being [seed + i] (section 4.4); the kernel is
    missing. *)
Fixpoint fbm_terms (interp : Interp) (lacunarity gain : float32) (octaves : nat)
    (seed : Z) (freq amp : float32) (p : list float32) : list float32 :=
  match octaves with
  | O => []
  | S n =>
      F32.mul amp (primitive seed interp (scale freq p))
      :: fbm_terms interp lacunarity gain n
           (wrap_int (seed + 1)) (F32.mul freq lacunarity) (F32.mul amp gain) p
  end.

(** Modelled from the spec: the accumulated sum of the contributions, in
    octave order (section 4.4); the kernel is missing. *)
Definition accumulate (terms : list float32) : float32 :=
  match terms with
  | [] => F32.zero
  | t :: rest => foldl F32.add t rest
  end.

(** Modelled from the spec: FBM, "multiply final sum by the fractal
    bounding factor" (section 4.4); the kernel is missing. *)
Definition FractalFBM (s : FastNoiseCL) (p : list float32) : float32 :=
  F32.mul
    (accumulate
       (fbm_terms (m_interp s) (m_lacunarity s) (m_gain s) (Z.to_nat (m_octaves s))
          (m_seed s) (m_frequency s) F32.one p))
    (m_fractalBounding s).

(** Modelled from the spec: the cellular resolver (section 4.5), "compute
    both distances once, branch only at the final combine step".  The
    return type is resolved once per call; [NoiseLookup] needs the
    secondary configuration, read from the free store [h], and without
    one (a null reference, or a reference to no live object) there is no
    kernel.  The kernel source is missing. *)
Definition CellularKernel (h : gmap addr FastNoiseCL) (s : FastNoiseCL)
  : option (list float32 -> float32) :=
  let around p :=
    nearest (m_seed s) (m_cellularDistanceFunction s) (scale (m_frequency s) p) in
  match m_cellularReturnType s with
  | CellValue => Some (fun p => cell_hash (around p))
  | NoiseLookup =>
      match m_cellularNoiseLookup s with
      | None => None
      | Some a => (fun secondary p => point_noise secondary (cell_position (around p))) <$> h !! a
      end
  | Distance => Some (fun p => distance (around p))
  | Distance2 => Some (fun p => distance2 (around p))
  | Distance2Add => Some (fun p => F32.add (distance (around p)) (distance2 (around p)))
  | Distance2Sub => Some (fun p => SFsub F32.prec F32.emax (distance (around p)) (distance2 (around p)))
  | Distance2Mul => Some (fun p => F32.mul (distance (around p)) (distance2 (around p)))
  | Distance2Div => Some (fun p => F32.div (distance (around p)) (distance2 (around p)))
  end.

(** Modelled from the spec: the cellular value at one point, when the
    configuration admits one (section 4.5); the kernel is missing. *)
Definition cellular_at (h : gmap addr FastNoiseCL) (s : FastNoiseCL) (p : list float32)
  : option float32 :=
  (fun k => k p) <$> CellularKernel h s.

(** Modelled from the spec: one work item evaluates the kernel at point
    [k] and stores the value at position [k] of the output (sections 4.7
    and 5); the device code is missing. *)
Definition work_item (kernel : list float32 -> float32) (points : list (list float32))
    (out : list float32) (k : nat) : list float32 :=
  match points !! k with
  | Some p => <[k := kernel p]> out
  | None => out
  end.

(** Modelled from the spec: the work items of a call, run in the order
    [order] over a fresh output array with one slot per point (section
    5); the device code is missing. *)
Definition execute (order : list nat) (kernel : list float32 -> float32)
    (points : list (list float32)) : list float32 :=
  foldl (work_item kernel points) (replicate (length points) F32.zero) order.

(** Modelled from the spec: dispatch of a kernel over a grid; an
    unavailable backend is fatal to the call (sections 4.7 and 7); the
    host code is missing. *)
Definition dispatch (kernel : list float32 -> float32) (axes : list Range) : evaluation :=
  match backend with
  | None => BackendError
  | Some schedule =>
      let points := grid_points axes in
      Output (execute (schedule (length points)) kernel points)
  end.

(** Modelled from the spec: cellular evaluation over a grid.  A missing
    lookup reference is a configuration error, "detected at dispatch
    time, reported to the caller, evaluation does not proceed,
    configuration state is left untouched" (sections 4.7 and 7).  The
    result comes with the configuration after the call.  The body of
    [GetCellular] is missing. *)
Definition GetCellular_on (h : gmap addr FastNoiseCL) (s : FastNoiseCL) (axes : list Range)
  : evaluation * FastNoiseCL :=
  match CellularKernel h s with
  | None => (ConfigurationError, s)
  | Some kernel => (dispatch kernel axes, s)
  end.

(** Modelled from the spec: the generic operation "dispatches purely on
    the configuration's current noise-family selector to the matching
    typed operation" (section 4.7).  The body of [GetNoise] is missing. *)
Definition GetNoise_on (h : gmap addr FastNoiseCL) (s : FastNoiseCL) (axes : list Range)
  : evaluation * FastNoiseCL :=
  match m_noiseType s with
  | Cellular => GetCellular_on h s axes
  | family => (dispatch (typed_kernel family s) axes, s)
  end.

(** Modelled from the spec: [float* GetCellular(Range x, Range y)], whose
    body is missing. *)
Definition GetCellular2 h (s : FastNoiseCL) (x y : Range) := GetCellular_on h s [x; y].

(** Modelled from the spec: [float* GetCellular(Range x, Range y, Range z)],
    whose body is missing. *)
Definition GetCellular3 h (s : FastNoiseCL) (x y z : Range) := GetCellular_on h s [x; y; z].
End Evaluation.

(** ** Predicates used by the statements *)

(** The cached bounding factor agrees with the two fields it is derived
    from. *)
Definition bounding_ok (s : FastNoiseCL) : Prop :=
  m_fractalBounding s = fractal_bounding (m_gain s) (m_octaves s).

(** The data members by name. *)
Inductive field :=
| F_seed | F_frequency | F_interp | F_noiseType
| F_octaves | F_lacunarity | F_gain | F_fractalType | F_fractalBounding
| F_cellularDistanceFunction | F_cellularReturnType | F_cellularNoiseLookup
| F_perturbAmp | F_perturb | F_kernel_adapter.

Global Instance field_eq_dec : EqDecision field.
Proof. solve_decision. Defined.

(** Two objects hold the same value in field [f]. *)
Definition same_at (f : field) (s s' : FastNoiseCL) : Prop :=
  match f with
  | F_seed => m_seed s = m_seed s'
  | F_frequency => m_frequency s = m_frequency s'
  | F_interp => m_interp s = m_interp s'
  | F_noiseType => m_noiseType s = m_noiseType s'
  | F_octaves => m_octaves s = m_octaves s'
  | F_lacunarity => m_lacunarity s = m_lacunarity s'
  | F_gain => m_gain s = m_gain s'
  | F_fractalType => m_fractalType s = m_fractalType s'
  | F_fractalBounding => m_fractalBounding s = m_fractalBounding s'
  | F_cellularDistanceFunction => m_cellularDistanceFunction s = m_cellularDistanceFunction s'
  | F_cellularReturnType => m_cellularReturnType s = m_cellularReturnType s'
  | F_cellularNoiseLookup => m_cellularNoiseLookup s = m_cellularNoiseLookup s'
  | F_perturbAmp => m_perturbAmp s = m_perturbAmp s'
  | F_perturb => m_perturb s = m_perturb s'
  | F_kernel_adapter => kernel_adapter s = kernel_adapter s'
  end.

(** A call of one of the setters, with its argument. *)
Inductive call :=
| CallSetSeed (seed : Z)
| CallSetFrequency (frequency : float32)
| CallSetInterp (interp : Interp)
| CallSetNoiseType (noiseType : NoiseType)
| CallSetFractalOctaves (octaves : Z)
| CallSetFractalLacunarity (lacunarity : float32)
| CallSetFractalGain (gain : float32)
| CallSetFractalType (fractalType : FractalType)
| CallSetCellularDistanceFunction (f : CellularDistanceFunction)
| CallSetCellularReturnType (r : CellularReturnType)
| CallSetCellularNoiseLookup (noise : option addr)
| CallSetPerturbAmp (perturbAmp : float32)
| CallSetPeturbType (perturb : PerturbType.t).

Definition run (c : call) : FastNoiseCL -> FastNoiseCL :=
  match c with
  | CallSetSeed v => SetSeed v
  | CallSetFrequency v => SetFrequency v
  | CallSetInterp v => SetInterp v
  | CallSetNoiseType v => SetNoiseType v
  | CallSetFractalOctaves v => SetFractalOctaves v
  | CallSetFractalLacunarity v => SetFractalLacunarity v
  | CallSetFractalGain v => SetFractalGain v
  | CallSetFractalType v => SetFractalType v
  | CallSetCellularDistanceFunction v => SetCellularDistanceFunction v
  | CallSetCellularReturnType v => SetCellularReturnType v
  | CallSetCellularNoiseLookup v => SetCellularNoiseLookup v
  | CallSetPerturbAmp v => SetPerturbAmp v
  | CallSetPeturbType v => SetPeturbType v
  end.

(** The field a setter is named after. *)
Definition own_field (c : call) : field :=
  match c with
  | CallSetSeed _ => F_seed
  | CallSetFrequency _ => F_frequency
  | CallSetInterp _ => F_interp
  | CallSetNoiseType _ => F_noiseType
  | CallSetFractalOctaves _ => F_octaves
  | CallSetFractalLacunarity _ => F_lacunarity
  | CallSetFractalGain _ => F_gain
  | CallSetFractalType _ => F_fractalType
  | CallSetCellularDistanceFunction _ => F_cellularDistanceFunction
  | CallSetCellularReturnType _ => F_cellularReturnType
  | CallSetCellularNoiseLookup _ => F_cellularNoiseLookup
  | CallSetPerturbAmp _ => F_perturbAmp
  | CallSetPeturbType _ => F_perturb
  end.

(** The two setters that end with [CalculateFractalBounding()]. *)
Definition recomputes (c : call) : bool :=
  match c with
  | CallSetFractalOctaves _ | CallSetFractalGain _ => true
  | _ => false
  end.

(** The fields a call may write. *)
Definition writes (c : call) (f : field) : bool :=
  bool_decide (f = own_field c) || (recomputes c && bool_decide (f = F_fractalBounding)).

(** After the call, the setter's own field holds the value computed from
    the argument. *)
Definition stored (c : call) (s' : FastNoiseCL) : Prop :=
  match c with
  | CallSetSeed v => m_seed s' = v
  | CallSetFrequency v => m_frequency s' = v
  | CallSetInterp v => m_interp s' = v
  | CallSetNoiseType v => m_noiseType s' = v
  | CallSetFractalOctaves v => m_octaves s' = v
  | CallSetFractalLacunarity v => m_lacunarity s' = v
  | CallSetFractalGain v => m_gain s' = v
  | CallSetFractalType v => m_fractalType s' = v
  | CallSetCellularDistanceFunction v => m_cellularDistanceFunction s' = v
  | CallSetCellularReturnType v => m_cellularReturnType s' = v
  | CallSetCellularNoiseLookup v => m_cellularNoiseLookup s' = v
  | CallSetPerturbAmp v => m_perturbAmp s' = F32.div v F32.c0_45
  | CallSetPeturbType v => m_perturb s' = v
  end.

(** [PrepareDevice] leaves the configuration alone: whatever it does to
    the kernel adapter, every other data member keeps its value. *)
Definition prepares_device_only {Device : Type}
    (PrepareDevice : Device -> FastNoiseCL -> FastNoiseCL) : Prop :=
  forall d s f, f <> F_kernel_adapter -> same_at f s (PrepareDevice d s).

(** The documented defaults ("Default: ..." in the header's comments). *)
Definition has_defaults (s : FastNoiseCL) : Prop :=
  m_seed s = 1337 /\ m_frequency s = F32.c0_01 /\ m_interp s = Quintic
  /\ m_noiseType s = Simplex
  /\ m_octaves s = 3 /\ m_lacunarity s = F32.two /\ m_gain s = F32.half
  /\ m_fractalType s = FBM
  /\ m_cellularDistanceFunction s = Euclidean /\ m_cellularReturnType s = CellValue
  /\ m_perturb s = PerturbType.None.

(** The object after a sequence of setter calls, first call first. *)
Definition run_all (calls : list call) (s : FastNoiseCL) : FastNoiseCL :=
  foldl (fun s c => run c s) s calls.

(** ** The closed form of the bounding factor *)

(** [gain^k] as the loop computes it: [gain^1 = gain], each further power
    one more multiplication by [gain]. *)
Fixpoint power (gain : float32) (k : nat) : float32 :=
  match k with
  | O => F32.one
  | S k' => match k' with
            | O => gain
            | S _ => F32.mul (power gain k') gain
            end
  end.

(** [1 + gain + gain^2 + ... + gain^(n-1)], summed from the left. *)
Fixpoint geometric_sum (gain : float32) (n : nat) : float32 :=
  match n with
  | O => F32.zero
  | S n' => match n' with
            | O => F32.one
            | S _ => F32.add (geometric_sum gain n') (power gain n')
            end
  end.

(** ** Further predicates *)

(** Equality of binary32 values is decidable. *)
Global Instance float32_eq_dec : EqDecision float32.
Proof. unfold F32.float32. solve_decision. Defined.

(** The largest finite binary32 number, [FLT_MAX]. *)
Definition max_float32 : float32 := SFmax_float F32.prec F32.emax.


(** The addresses [l] are the chain of lookup references that starts at the
    pointer [p] in the free store [h]: each is the address of a live
    object, whose [m_cellularNoiseLookup] is the next, and the last object
    refers to nothing. *)
Fixpoint lookup_chain (h : gmap addr FastNoiseCL) (p : option addr) (l : list addr) : Prop :=
  match l with
  | [] => p = None
  | a :: rest =>
      p = Some a /\ exists o, h !! a = Some o /\ lookup_chain h (m_cellularNoiseLookup o) rest
  end.

(** The free store with the objects at the addresses [l] released. *)
Definition release (h : gmap addr FastNoiseCL) (l : list addr) : gmap addr FastNoiseCL :=
  foldl (fun m a => delete a m) h l.

(** * Properties *)

(** ** binary32 facts *)

Section Float32Facts.

(** The literals are the correctly rounded values of the decimals in the
    header. *)
Lemma literal_values :
  F32.one = F32.of_Z 1 /\ F32.two = F32.of_Z 2 /\
  F32.half = F32.div (F32.of_Z 1) (F32.of_Z 2) /\
  F32.c0_45 = F32.div (F32.of_Z 45) (F32.of_Z 100) /\
  F32.c0_01 = F32.div (F32.of_Z 1) (F32.of_Z 100).
Proof. repeat split; vm_compute; reflexivity. Qed.

(** [0.45] as a [double] is the correctly rounded binary64 quotient of 45
    and 100, and becomes [0.45f] when converted to [float]. *)
Lemma double_literal_0_45 :
  F32.d0_45 = SFdiv 53 1024 (binary_normalize 53 1024 45 0 false)
                            (binary_normalize 53 1024 100 0 false)
  /\ F32.of_double F32.d0_45 = F32.c0_45.
Proof. split; vm_compute; reflexivity. Qed.

Lemma F32_mul_comm (x y : float32) : F32.mul x y = F32.mul y x.
Proof.
  destruct x as [sx|sx| |sx mx ex], y as [sy|sy| |sy my ey]; simpl;
    try reflexivity; try (f_equal; apply xorb_comm).
  unfold F32.mul; simpl.
  by rewrite (xorb_comm sx sy), (Pos.mul_comm mx my), (Z.add_comm ex ey).
Qed.

(** Shifting a mantissa left by 23 bits adds 23 binary digits. *)
Lemma digits2_shift23 (m : positive) :
  Z.pos (digits2_pos (8388608 * m)) = Z.pos (digits2_pos m) + 23.
Proof. cbv [Pos.mul]. cbn [digits2_pos]. lia. Qed.

(** Multiplication by [1.0f] is exact on every binary32 value. *)
Lemma F32_mul_one_l (x : float32) : F32.valid x = true -> F32.mul F32.one x = x.
Proof.
  destruct x as [s|s| |s m e]; try reflexivity.
  unfold F32.valid, valid_binary, bounded, canonical_mantissa.
  intros [Hc He]%andb_prop. apply Z.eqb_eq in Hc. apply Z.leb_le in He.
  unfold F32.mul, F32.one, SFmul, binary_round_aux, shr_fexp.
  rewrite xorb_false_l.
  unfold Zdigits2 at 1. rewrite digits2_shift23.
  replace (Z.pos (digits2_pos m) + 23 + (-23 + e)) with (Z.pos (digits2_pos m) + e) by lia.
  rewrite Hc.
  replace (e - (-23 + e)) with 23 by lia.
  cbv [Pos.mul]. cbn [shr shr_record_of_loc SpecFloat.iter_pos shr_1 orb].
  cbn [loc_of_shr_record shr_m round_nearest_even Zdigits2].
  replace (-23 + e + 23) with e by lia.
  rewrite Hc, Z.sub_diag. cbn [shr shr_m].
  apply Z.leb_le in He. by rewrite He.
Qed.

Lemma F32_mul_one_r (x : float32) : F32.valid x = true -> F32.mul x F32.one = x.
Proof. intros H. rewrite F32_mul_comm. by apply F32_mul_one_l. Qed.

Lemma F32_div_one_one : F32.div F32.one F32.one = F32.one.
Proof. vm_compute. reflexivity. Qed.

End Float32Facts.

(** ** The loop of CalculateFractalBounding *)

Section BoundingLoop.

Lemma bounding_loop_step (gain : float32) (u i : Z) (amp ampFractal : float32) :
  i < u ->
  bounding_loop gain u i amp ampFractal
  = bounding_loop gain u (i + 1) (F32.mul amp gain) (F32.add ampFractal amp).
Proof.
  intros Hlt. rewrite bounding_loop_equation_1.
  destruct (Z_lt_dec i u) as [?|Hn]; [reflexivity | lia].
Qed.

Lemma bounding_loop_exit (gain : float32) (u i : Z) (amp ampFractal : float32) :
  u <= i -> bounding_loop gain u i amp ampFractal = (amp, ampFractal).
Proof.
  intros Hge. rewrite bounding_loop_equation_1.
  destruct (Z_lt_dec i u) as [?|Hn]; [lia | reflexivity].
Qed.

(** From counter [k+1] on, with [amp = gain^(k+1)] and [ampFractal] the
    sum of the first [k+1] powers, the loop leaves the sum of all
    [k+1+n] powers behind. *)
Lemma bounding_loop_sum (gain : float32) (n k : nat) :
  bounding_loop gain (Z.of_nat (S k + n)) (Z.of_nat (S k))
    (power gain (S k)) (geometric_sum gain (S k))
  = (power gain (S k + n), geometric_sum gain (S k + n)).
Proof.
  revert k. induction n as [|n IH]; intros k.
  - rewrite Nat.add_0_r. apply bounding_loop_exit. lia.
  - rewrite bounding_loop_step by lia.
    replace (Z.of_nat (S k) + 1) with (Z.of_nat (S (S k))) by lia.
    replace (S k + S n)%nat with (S (S k) + n)%nat by lia.
    exact (IH (S k)).
Qed.

Lemma to_unsigned_small (z : Z) : 0 <= z <= int_max -> to_unsigned z = z.
Proof. unfold to_unsigned, int_max. intros H. apply Z.mod_small. lia. Qed.

Lemma to_unsigned_negative (z : Z) : int_min <= z < 0 -> to_unsigned z = z + 2 ^ 32.
Proof.
  unfold to_unsigned, int_min. intros H.
  symmetry. apply Z.mod_unique with (q := -1); lia.
Qed.

(** The bounding factor in terms of the converted octave count. *)
Lemma fractal_bounding_unsigned (gain : float32) (octaves : Z) :
  1 <= to_unsigned octaves ->
  fractal_bounding gain octaves
  = F32.div F32.one (geometric_sum gain (Z.to_nat (to_unsigned octaves))).
Proof.
  intros Hu. unfold fractal_bounding.
  pose proof (bounding_loop_sum gain (Z.to_nat (to_unsigned octaves - 1)) 0) as Hl.
  replace (Z.of_nat (1 + Z.to_nat (to_unsigned octaves - 1))) with (to_unsigned octaves) in Hl by lia.
  change (Z.of_nat 1) with 1 in Hl. change (power gain 1) with gain in Hl.
  change (geometric_sum gain 1) with F32.one in Hl.
  rewrite Hl. do 2 f_equal. lia.
Qed.

(** A negative octave count is compared as a large unsigned one: the
    loop then runs [octaves + 2^32 - 1] times. *)
Lemma fractal_bounding_negative (gain : float32) (octaves : Z) :
  in_int octaves -> octaves < 0 ->
  fractal_bounding gain octaves
  = F32.div F32.one (geometric_sum gain (Z.to_nat (octaves + 2 ^ 32))).
Proof.
  intros [Hmin _] Hneg.
  pose proof (to_unsigned_negative octaves (conj Hmin Hneg)) as Hu.
  rewrite fractal_bounding_unsigned; rewrite Hu; [reflexivity|].
  unfold int_min in Hmin. lia.
Qed.

Lemma fractal_bounding_one (gain : float32) (octaves : Z) :
  0 <= octaves <= 1 -> fractal_bounding gain octaves = F32.one.
Proof.
  intros H. unfold fractal_bounding.
  rewrite bounding_loop_exit.
  - apply F32_div_one_one.
  - rewrite to_unsigned_small; [lia | unfold int_max; lia].
Qed.

End BoundingLoop.

(** C10: [CalculateFractalBounding] computes
    [1 / (1 + gain + gain^2 + ... + gain^(octaves-1))] for an octave count
    of at least 1, the powers and the sum taken in binary32 in the order
    of the loop; for an octave count of 0 or 1 the loop body never runs
    (the loop hands back the [amp] and [ampFractal] it was given) and the
    bounding factor is exactly [1.0f], whatever the gain. *)
Theorem fractal_bounding_closed_form (gain : float32) (octaves : Z) :
  1 <= octaves <= int_max ->
  fractal_bounding gain octaves = F32.div F32.one (geometric_sum gain (Z.to_nat octaves))
  /\ (forall amp ampFractal,
        bounding_loop gain (to_unsigned 0) 1 amp ampFractal = (amp, ampFractal)
        /\ bounding_loop gain (to_unsigned 1) 1 amp ampFractal = (amp, ampFractal))
  /\ fractal_bounding gain 0 = F32.one
  /\ fractal_bounding gain 1 = F32.one.
Proof.
  intros H. split; [|split; [|split]].
  - rewrite fractal_bounding_unsigned; rewrite to_unsigned_small; (reflexivity || lia).
  - intros amp ampFractal.
    split; apply bounding_loop_exit; vm_compute; discriminate.
  - apply fractal_bounding_one. lia.
  - apply fractal_bounding_one. lia.
Qed.

Lemma fractal_bounding_closed_form_witness :
  1 <= 3 <= int_max
  /\ fractal_bounding F32.half 3 = F32.div F32.one (geometric_sum F32.half (Z.to_nat 3)).
Proof.
  assert (H : 1 <= 3 <= int_max) by (unfold int_max; lia).
  split; [exact H | exact (proj1 (fractal_bounding_closed_form F32.half 3 H))].
Defined.

(** The default recipe, gain 0.5 and 3 octaves: [1 / 1.75], rounded. *)
Example fractal_bounding_default :
  fractal_bounding F32.half 3 = S754_finite false 9586981 (-24).
Proof. vm_compute. reflexivity. Qed.

(** C2: for every [a], [SetPerturbAmp(a)] stores [a / 0.45f]; with
    [a = 0.45f], written as the [float] literal or as the [double] literal
    [0.45] converted to the parameter's type, the stored value is exactly
    [1.0f]. *)
Theorem SetPerturbAmp_scaling (a : float32) (s : FastNoiseCL) :
  m_perturbAmp (SetPerturbAmp a s) = F32.div a F32.c0_45
  /\ m_perturbAmp (SetPerturbAmp F32.c0_45 s) = F32.one
  /\ m_perturbAmp (SetPerturbAmp (F32.of_double F32.d0_45) s) = F32.one.
Proof. split; [reflexivity | split; vm_compute; reflexivity]. Qed.

(** The default amplitude, [1.0f / 0.45f], is what the setter stores for
    the documented default [1.0]. *)
Example perturb_amp_default (s : FastNoiseCL) :
  m_perturbAmp (member_init F32.zero) = m_perturbAmp (SetPerturbAmp F32.one s).
Proof. reflexivity. Qed.

(** ** The configuration object *)

Section Configuration.

Lemma CalculateFractalBounding_ok (s : FastNoiseCL) :
  bounding_ok (CalculateFractalBounding s).
Proof. reflexivity. Qed.

(** What a call does to the three fields of the invariant. *)
Lemma run_bounding (c : call) (s : FastNoiseCL) :
  if recomputes c then bounding_ok (run c s)
  else m_fractalBounding (run c s) = m_fractalBounding s
       /\ m_gain (run c s) = m_gain s /\ m_octaves (run c s) = m_octaves s.
Proof.
  destruct c; simpl; try (repeat split; reflexivity); apply CalculateFractalBounding_ok.
Qed.

Lemma run_preserves_bounding_ok (c : call) (s : FastNoiseCL) :
  bounding_ok s -> bounding_ok (run c s).
Proof.
  intros Hs. pose proof (run_bounding c s) as H.
  destruct (recomputes c); [exact H|].
  destruct H as (Hb & Hg & Ho). unfold bounding_ok. by rewrite Hb, Hg, Ho.
Qed.

Lemma run_all_preserves_bounding_ok (calls : list call) (s : FastNoiseCL) :
  bounding_ok s -> bounding_ok (run_all calls s).
Proof.
  revert s. induction calls as [|c calls IH]; intros s Hs; [exact Hs|].
  apply IH. by apply run_preserves_bounding_ok.
Qed.

Lemma run_frame (c : call) (s : FastNoiseCL) (f : field) :
  writes c f = false -> same_at f s (run c s).
Proof. destruct c, f; simpl; intros Hw; try reflexivity; discriminate Hw. Qed.

Lemma run_stored (c : call) (s : FastNoiseCL) : stored c (run c s).
Proof. destruct c; reflexivity. Qed.

End Configuration.

(** C1: the bounding factor is a function of gain and octave count.  After
    either constructor, and after any sequence of setter calls that
    follows, [m_fractalBounding] is [CalculateFractalBounding]'s value for
    the current [m_gain] and [m_octaves]; [SetFractalOctaves] and
    [SetFractalGain] re-establish this on return, from any object, and
    every other setter leaves all three fields as they were.  The private
    [PrepareDevice], whose body is missing, is assumed to leave the
    configuration fields alone. *)
Theorem fractal_bounding_invariant {Device : Type}
    (PrepareDevice : Device -> FastNoiseCL -> FastNoiseCL)
    (calls : list call) (indeterminate : float32) (device : Device) (seed : Z) :
  prepares_device_only PrepareDevice ->
  bounding_ok (run_all calls (FastNoiseCL_lookup indeterminate seed))
  /\ bounding_ok
       (run_all calls (FastNoiseCL_generator Device PrepareDevice indeterminate device seed))
  /\ (forall octaves s, bounding_ok (SetFractalOctaves octaves s))
  /\ (forall gain s, bounding_ok (SetFractalGain gain s))
  /\ (forall c s,
        if recomputes c then bounding_ok (run c s)
        else m_fractalBounding (run c s) = m_fractalBounding s
             /\ m_gain (run c s) = m_gain s /\ m_octaves (run c s) = m_octaves s).
Proof.
  intros Hdev. split; [|split; [|split; [|split]]].
  - apply run_all_preserves_bounding_ok, CalculateFractalBounding_ok.
  - apply run_all_preserves_bounding_ok. unfold FastNoiseCL_generator, bounding_ok.
    set (s0 := CalculateFractalBounding _).
    pose proof (Hdev device s0 F_fractalBounding ltac:(discriminate)) as Hb.
    pose proof (Hdev device s0 F_gain ltac:(discriminate)) as Hg.
    pose proof (Hdev device s0 F_octaves ltac:(discriminate)) as Ho.
    simpl in Hb, Hg, Ho. rewrite <- Hb, <- Hg, <- Ho. reflexivity.
  - intros; apply CalculateFractalBounding_ok.
  - intros; apply CalculateFractalBounding_ok.
  - apply run_bounding.
Qed.

(** A device preparation that installs adapter number 1 and nothing
    else. *)
Lemma install_adapter_only :
  prepares_device_only
    (fun (_ : unit) s =>
       mkFastNoiseCL (m_seed s) (m_frequency s) (m_interp s) (m_noiseType s)
         (m_octaves s) (m_lacunarity s) (m_gain s) (m_fractalType s) (m_fractalBounding s)
         (m_cellularDistanceFunction s) (m_cellularReturnType s) (m_cellularNoiseLookup s)
         (m_perturbAmp s) (m_perturb s) (Some 1%positive)).
Proof. intros d s f Hf. destruct f; try reflexivity. by destruct Hf. Defined.

Lemma fractal_bounding_invariant_witness :
  let prepare := fun (_ : unit) s =>
       mkFastNoiseCL (m_seed s) (m_frequency s) (m_interp s) (m_noiseType s)
         (m_octaves s) (m_lacunarity s) (m_gain s) (m_fractalType s) (m_fractalBounding s)
         (m_cellularDistanceFunction s) (m_cellularReturnType s) (m_cellularNoiseLookup s)
         (m_perturbAmp s) (m_perturb s) (Some 1%positive) in
  let calls := [CallSetFractalGain F32.c0_45; CallSetFrequency F32.two; CallSetFractalOctaves 5] in
  prepares_device_only prepare
  /\ bounding_ok (run_all calls (FastNoiseCL_lookup F32.zero 42))
  /\ bounding_ok (run_all calls (FastNoiseCL_generator unit prepare F32.zero tt 42)).
Proof.
  intros prepare calls.
  pose proof (fractal_bounding_invariant prepare calls F32.zero tt 42 install_adapter_only)
    as (H1 & H2 & _).
  exact (conj install_adapter_only (conj H1 H2)).
Defined.

(** C7: a setter accepts every value of its parameter's type and stores it
    in its own field ([SetPerturbAmp] stores the quotient by [0.45f]); a
    field the call does not write keeps its value, where
    [SetFractalOctaves] and [SetFractalGain] write the bounding factor
    besides their own field; zero octaves are accepted like any other
    count; [GetSeed] returns [m_seed] and leaves the object as it was. *)
Theorem setters_write_own_field (c : call) (s : FastNoiseCL) (f : field) :
  writes c f = false ->
  same_at f s (run c s)
  /\ stored c (run c s)
  /\ (if recomputes c then bounding_ok (run c s)
      else same_at F_fractalBounding s (run c s))
  /\ (m_octaves (SetFractalOctaves 0 s) = 0
      /\ m_fractalBounding (SetFractalOctaves 0 s) = F32.one)
  /\ GetSeed s = (m_seed s, s).
Proof.
  intros Hw. split; [|split; [|split; [|split]]].
  - by apply run_frame.
  - apply run_stored.
  - destruct c; simpl; try reflexivity; apply CalculateFractalBounding_ok.
  - split; [reflexivity|]. simpl. apply fractal_bounding_one. lia.
  - reflexivity.
Qed.

Lemma setters_write_own_field_witness :
  let s := FastNoiseCL_lookup F32.zero default_seed in
  writes (CallSetFractalOctaves 0) F_gain = false
  /\ same_at F_gain s (run (CallSetFractalOctaves 0) s)
  /\ stored (CallSetFractalOctaves 0) (run (CallSetFractalOctaves 0) s).
Proof.
  intros s.
  pose proof (setters_write_own_field (CallSetFractalOctaves 0) s F_gain eq_refl)
    as (H1 & H2 & _).
  exact (conj eq_refl (conj H1 H2)).
Defined.

(** C8: a newly constructed object, from either constructor with the
    default seed argument, has seed 1337, frequency 0.01f, Quintic
    interpolation, the Simplex family, 3 octaves, lacunarity 2.0f, gain
    0.5f, FBM, the Euclidean distance function, the CellValue return type
    and perturb type None.  [SetSeed] is taken to store the seed, and
    [PrepareDevice] to leave the configuration fields alone. *)
Theorem constructor_defaults {Device : Type}
    (PrepareDevice : Device -> FastNoiseCL -> FastNoiseCL)
    (indeterminate : float32) (device : Device) :
  prepares_device_only PrepareDevice ->
  has_defaults (FastNoiseCL_lookup indeterminate default_seed)
  /\ has_defaults (FastNoiseCL_generator Device PrepareDevice indeterminate device default_seed).
Proof.
  intros Hdev. split; [repeat split|].
  unfold FastNoiseCL_generator, has_defaults. set (s0 := CalculateFractalBounding _).
  pose proof (fun f H => Hdev device s0 f H) as Hf.
  rewrite <- (Hf F_seed), <- (Hf F_frequency), <- (Hf F_interp), <- (Hf F_noiseType),
    <- (Hf F_octaves), <- (Hf F_lacunarity), <- (Hf F_gain), <- (Hf F_fractalType),
    <- (Hf F_cellularDistanceFunction), <- (Hf F_cellularReturnType), <- (Hf F_perturb)
    by discriminate.
  repeat split.
Qed.

Lemma constructor_defaults_witness :
  let prepare := fun (_ : unit) s =>
       mkFastNoiseCL (m_seed s) (m_frequency s) (m_interp s) (m_noiseType s)
         (m_octaves s) (m_lacunarity s) (m_gain s) (m_fractalType s) (m_fractalBounding s)
         (m_cellularDistanceFunction s) (m_cellularReturnType s) (m_cellularNoiseLookup s)
         (m_perturbAmp s) (m_perturb s) (Some 1%positive) in
  prepares_device_only prepare
  /\ has_defaults (FastNoiseCL_lookup F32.zero default_seed)
  /\ has_defaults (FastNoiseCL_generator unit prepare F32.zero tt default_seed).
Proof.
  intros prepare.
  exact (conj install_adapter_only
           (constructor_defaults prepare F32.zero tt install_adapter_only)).
Defined.

(** ** Destruction and the free store *)

Section FreeStore.

Lemma delete_FastNoiseCL_live (h : gmap addr FastNoiseCL) (a : addr) (o : FastNoiseCL) :
  h !! a = Some o ->
  delete_FastNoiseCL h (Some a) = delete_FastNoiseCL (delete a h) (m_cellularNoiseLookup o).
Proof.
  intros H. rewrite delete_FastNoiseCL_equation_1.
  destruct (Logic.inspect (h !! a)) as [[o'|] e].
  - simp delete_FastNoiseCL. congruence.
  - congruence.
Qed.

Lemma delete_FastNoiseCL_dangling (h : gmap addr FastNoiseCL) (a : addr) :
  h !! a = None -> delete_FastNoiseCL h (Some a) = None.
Proof.
  intros H. rewrite delete_FastNoiseCL_equation_1.
  destruct (Logic.inspect (h !! a)) as [[o'|] e]; [congruence | reflexivity].
Qed.

(** Deleting creates and changes nothing: what is live afterwards was
    live, with the same contents, before; and the object deleted is not
    among it. *)
Lemma delete_FastNoiseCL_subseteq (n : nat) :
  forall (h h' : gmap addr FastNoiseCL) (p : option addr),
    (size h <= n)%nat ->
    delete_FastNoiseCL h p = Some h' ->
    h' ⊆ match p with Some a => delete a h | None => h end.
Proof.
  induction n as [|n IH]; intros h h' [a|] Hn Hd.
  - apply Nat.le_0_r, map_size_empty_iff in Hn. subst h.
    rewrite delete_FastNoiseCL_dangling in Hd by apply lookup_empty. discriminate.
  - simp delete_FastNoiseCL in Hd. by injection Hd as ->.
  - destruct (h !! a) as [o|] eqn:Ha.
    + rewrite (delete_FastNoiseCL_live h a o Ha) in Hd.
      apply IH in Hd.
      * destruct (m_cellularNoiseLookup o) as [b|]; [|exact Hd].
        etrans; [exact Hd | apply delete_subseteq].
      * rewrite map_size_delete, Ha. simpl. lia.
    + rewrite delete_FastNoiseCL_dangling in Hd by exact Ha. discriminate.
  - simp delete_FastNoiseCL in Hd. by injection Hd as ->.
Qed.

Lemma delete_FastNoiseCL_released (h h' : gmap addr FastNoiseCL) (a : addr) :
  delete_FastNoiseCL h (Some a) = Some h' -> h' !! a = None.
Proof.
  intros Hd. apply (delete_FastNoiseCL_subseteq (size h)) in Hd; [|lia].
  eapply lookup_weaken_None; [apply lookup_delete_eq | exact Hd].
Qed.

End FreeStore.

(** C9: [SetCellularNoiseLookup] only stores the pointer, whatever was
    referenced before, yet the destructor deletes the object the pointer
    refers to at that time: when [a] is a live secondary instance whose own
    destruction is defined and leaves the store [h'], destroying a
    configuration on which [SetCellularNoiseLookup(a)] was called leaves
    [h'], in which [a] is no longer live; when the secondary references
    nothing itself, [h'] is the store without [a]. *)
Theorem destructor_deletes_lookup
    (h h' : gmap addr FastNoiseCL) (s o : FastNoiseCL) (a : addr) :
  h !! a = Some o ->
  destroy_FastNoiseCL (delete a h) o = Some h' ->
  m_cellularNoiseLookup (SetCellularNoiseLookup (Some a) s) = Some a
  /\ destroy_FastNoiseCL h (SetCellularNoiseLookup (Some a) s) = Some h'
  /\ h' !! a = None
  /\ match m_cellularNoiseLookup o with
     | Some _ => True
     | None => h' = delete a h
     end.
Proof.
  intros Ha Ho.
  assert (Hd : destroy_FastNoiseCL h (SetCellularNoiseLookup (Some a) s) = Some h').
  { unfold destroy_FastNoiseCL in *. simpl.
    by rewrite (delete_FastNoiseCL_live h a o Ha). }
  split; [reflexivity|]. split; [exact Hd|]. split.
  - unfold destroy_FastNoiseCL in Hd. simpl in Hd.
    by apply delete_FastNoiseCL_released in Hd.
  - unfold destroy_FastNoiseCL in Ho.
    destruct (m_cellularNoiseLookup o); [exact I|].
    simp delete_FastNoiseCL in Ho. by injection Ho as ->.
Qed.

(** A store with a primary's secondary at address 2, whose own lookup is
    the instance at address 3. *)
Lemma destructor_deletes_lookup_witness :
  let third := FastNoiseCL_lookup F32.zero 3 in
  let second := SetCellularNoiseLookup (Some 3%positive) (FastNoiseCL_lookup F32.zero 2) in
  let h : gmap addr FastNoiseCL := {[ 2%positive := second; 3%positive := third ]} in
  let primary := FastNoiseCL_lookup F32.zero 1 in
  h !! 2%positive = Some second
  /\ destroy_FastNoiseCL (delete 2%positive h) second = Some ∅
  /\ destroy_FastNoiseCL h (SetCellularNoiseLookup (Some 2%positive) primary) = Some ∅.
Proof.
  intros third second h primary.
  assert (H1 : h !! 2%positive = Some second) by (vm_compute; reflexivity).
  assert (H2 : destroy_FastNoiseCL (delete 2%positive h) second = Some ∅)
    by (vm_compute; reflexivity).
  pose proof (destructor_deletes_lookup h ∅ primary second 2%positive H1 H2) as (_ & H3 & _).
  exact (conj H1 (conj H2 H3)).
Defined.

(** A reference that has been replaced is not deleted: the instance at
    address 2 outlives the configuration that once referred to it. *)
Example replaced_lookup_survives :
  let second := FastNoiseCL_lookup F32.zero 2 in
  let third := FastNoiseCL_lookup F32.zero 3 in
  let h : gmap addr FastNoiseCL := {[ 2%positive := second; 3%positive := third ]} in
  let primary :=
    SetCellularNoiseLookup (Some 3%positive)
      (SetCellularNoiseLookup (Some 2%positive) (FastNoiseCL_lookup F32.zero 1)) in
  destroy_FastNoiseCL h primary = Some {[ 2%positive := second ]}.
Proof. vm_compute. reflexivity. Qed.

(** An instance set as its own lookup: its destructor deletes the object
    that is being destroyed. *)
Example self_lookup_undefined :
  let self := SetCellularNoiseLookup (Some 2%positive) (FastNoiseCL_lookup F32.zero 2) in
  delete_FastNoiseCL {[ 2%positive := self ]} (Some 2%positive) = None.
Proof. vm_compute. reflexivity. Qed.

(** ** Evaluation *)

Section WorkItems.
Variable kernel : list float32 -> float32.
Variable points : list (list float32).

Lemma work_item_length (out : list float32) (k : nat) :
  length (work_item kernel points out k) = length out.
Proof. unfold work_item. destruct (points !! k); [apply length_insert | reflexivity]. Qed.

(** The slot of a point holds what the work items of the order have put
    there: the kernel's value once the point has been run, however often
    and whenever, and the old content otherwise. *)
Lemma run_work_items_lookup (order : list nat) :
  forall (out : list float32) (i : nat),
    length out = length points ->
    foldl (work_item kernel points) out order !! i
    = if decide (i ∈ order) then kernel <$> points !! i else out !! i.
Proof.
  induction order as [|k order IH]; intros out i Hlen; cbn [foldl].
  - destruct (decide (i ∈ [])) as [Hin|]; [|reflexivity]. by apply elem_of_nil in Hin.
  - rewrite IH by (by rewrite work_item_length).
    destruct (decide (i ∈ order)) as [Hin|Hnin].
    + rewrite decide_True by (apply elem_of_cons; by right). reflexivity.
    + destruct (decide (i = k)) as [->|Hne].
      * rewrite decide_True by (apply elem_of_cons; by left).
        unfold work_item. destruct (points !! k) as [p|] eqn:Hp; simpl.
        -- apply list_lookup_insert_eq. rewrite Hlen. by eapply lookup_lt_Some.
        -- apply lookup_ge_None. rewrite Hlen. by apply lookup_ge_None.
      * rewrite decide_False by (rewrite elem_of_cons; intros [?|?]; done).
        unfold work_item. destruct (points !! k); [|reflexivity].
        by apply list_lookup_insert_ne.
Qed.

(** An order that reaches every point fills the output with the kernel's
    values, each at the position of its point. *)
Lemma execute_covering (order : list nat) :
  (forall i, (i < length points)%nat -> i ∈ order) ->
  execute order kernel points = kernel <$> points.
Proof.
  intros Hcover. apply list_eq. intros i. unfold execute.
  rewrite run_work_items_lookup by apply length_replicate.
  rewrite list_lookup_fmap.
  destruct (decide (i ∈ order)) as [|Hnin]; [reflexivity|].
  destruct (decide (i < length points)%nat) as [Hlt|Hge].
  - destruct Hnin. by apply Hcover.
  - rewrite (lookup_ge_None_2 points i) by lia.
    apply lookup_replicate_None. lia.
Qed.

Lemma execute_permutation (order : list nat) :
  order ≡ₚ seq 0 (length points) -> execute order kernel points = kernel <$> points.
Proof.
  intros Hperm. apply execute_covering. intros i Hi.
  rewrite Hperm. apply elem_of_seq. lia.
Qed.

End WorkItems.

(** C6: evaluation is a function of configuration and point, and the
    output does not depend on the order in which the points are run: for
    any two schedules that run each of the [n] points of a call once, in
    whatever order, dispatch yields the same array, and position [k] of it
    holds the kernel's value at the [k]-th grid point. *)
Theorem dispatch_order_independent
    (kernel : list float32 -> float32) (axes : list Range)
    (schedule1 schedule2 : nat -> list nat) :
  (forall n, schedule1 n ≡ₚ seq 0 n) ->
  (forall n, schedule2 n ≡ₚ seq 0 n) ->
  dispatch (Some schedule1) kernel axes = dispatch (Some schedule2) kernel axes
  /\ dispatch (Some schedule1) kernel axes = Output (kernel <$> grid_points axes)
  /\ forall k, execute (schedule1 (length (grid_points axes))) kernel (grid_points axes) !! k
               = kernel <$> grid_points axes !! k.
Proof.
  intros H1 H2. unfold dispatch.
  rewrite !execute_permutation by auto.
  repeat split. intros k. by rewrite list_lookup_fmap.
Qed.

Lemma dispatch_order_independent_witness :
  let kernel := fun p : list float32 => foldl F32.add F32.one p in
  let axes := [RangeContainer.mk 2 F32.zero F32.half; RangeContainer.mk 3 F32.one F32.two] in
  (forall n, seq 0 n ≡ₚ seq 0 n)
  /\ (forall n, reverse (seq 0 n) ≡ₚ seq 0 n)
  /\ dispatch (Some (seq 0)) kernel axes = dispatch (Some (fun n => reverse (seq 0 n))) kernel axes.
Proof.
  intros kernel axes.
  assert (H1 : forall n, seq 0 n ≡ₚ seq 0 n) by reflexivity.
  assert (H2 : forall n, reverse (seq 0 n) ≡ₚ seq 0 n) by (intros n; apply reverse_Permutation).
  exact (conj H1 (conj H2
           (proj1 (dispatch_order_independent kernel axes (seq 0)
                     (fun n => reverse (seq 0 n)) H1 H2)))).
Defined.

(** A schedule may run a point twice: the second run stores the same
    value. *)
Example execute_twice :
  let kernel := fun p : list float32 => foldl F32.add F32.one p in
  let points := grid_points [RangeContainer.mk 3 F32.zero F32.half] in
  execute [2; 0; 1; 2; 0]%nat kernel points = kernel <$> points.
Proof. vm_compute. reflexivity. Qed.

(** The 2 by 3 grid of section 8: six points, the first axis running
    fastest. *)
Example grid_2_3 :
  let x := RangeContainer.mk 2 F32.zero F32.one in
  let y := RangeContainer.mk 3 F32.zero F32.one in
  length (grid_points [x; y]) = 6%nat
  /\ forall i j, (i < 2)%nat -> (j < 3)%nat ->
       grid_points [x; y] !! (i + 2 * j)%nat = Some [axis_sample x i; axis_sample y j].
Proof.
  split; [reflexivity|]. intros i j Hi Hj.
  destruct i as [|[|i]]; [| |lia]; destruct j as [|[|[|j]]]; try lia; reflexivity.
Qed.

Section Resolver.
Variable nearest : Z -> CellularDistanceFunction -> list float32 -> cells.
Variable point_noise : FastNoiseCL -> list float32 -> float32.
Variable backend : option (nat -> list nat).
Variable typed_kernel : NoiseType -> FastNoiseCL -> list float32 -> float32.

Lemma CellularKernel_no_lookup (h : gmap addr FastNoiseCL) (s : FastNoiseCL) :
  m_cellularReturnType s = NoiseLookup ->
  m_cellularNoiseLookup s = None ->
  CellularKernel nearest point_noise h s = None.
Proof. intros Hr Hl. unfold CellularKernel. by rewrite Hr, Hl. Qed.

(** Without a kernel, the call stops with a configuration error and the
    configuration it was given. *)
Lemma GetCellular_on_no_kernel (h : gmap addr FastNoiseCL) (s : FastNoiseCL) axes :
  CellularKernel nearest point_noise h s = None ->
  GetCellular_on nearest point_noise backend h s axes = (ConfigurationError, s).
Proof. intros Hk. unfold GetCellular_on. by rewrite Hk. Qed.

End Resolver.

(** C3: with return type [NoiseLookup] and a null lookup reference (the
    value the constructors leave there), every cellular evaluation, typed
    in two or three dimensions or reached through the generic operation,
    ends in a configuration error: no output array, and the configuration
    is the one the call was given. *)
Theorem lookup_without_secondary
    (nearest : Z -> CellularDistanceFunction -> list float32 -> cells)
    (point_noise : FastNoiseCL -> list float32 -> float32)
    (backend : option (nat -> list nat))
    (typed_kernel : NoiseType -> FastNoiseCL -> list float32 -> float32)
    (h : gmap addr FastNoiseCL) (s : FastNoiseCL) (x y z : Range) (axes : list Range) :
  m_cellularReturnType s = NoiseLookup ->
  m_cellularNoiseLookup s = None ->
  GetCellular2 nearest point_noise backend h s x y = (ConfigurationError, s)
  /\ GetCellular3 nearest point_noise backend h s x y z = (ConfigurationError, s)
  /\ GetNoise_on nearest point_noise backend typed_kernel h (SetNoiseType Cellular s) axes
     = (ConfigurationError, SetNoiseType Cellular s)
  /\ (forall indeterminate seed,
        m_cellularNoiseLookup (FastNoiseCL_lookup indeterminate seed) = None).
Proof.
  intros Hr Hl. split; [|split; [|split]].
  - by apply GetCellular_on_no_kernel, CellularKernel_no_lookup.
  - by apply GetCellular_on_no_kernel, CellularKernel_no_lookup.
  - unfold GetNoise_on. cbn [SetNoiseType m_noiseType].
    by apply GetCellular_on_no_kernel, CellularKernel_no_lookup.
  - reflexivity.
Qed.

Lemma lookup_without_secondary_witness :
  let nearest := fun (seed : Z) (_ : CellularDistanceFunction) (q : list float32) =>
                   mkCells (F32.of_Z seed) q F32.half F32.two in
  let point_noise := fun (c : FastNoiseCL) (_ : list float32) => m_frequency c in
  let typed_kernel := fun (_ : NoiseType) (c : FastNoiseCL) (_ : list float32) => m_gain c in
  let s := SetCellularReturnType NoiseLookup (FastNoiseCL_lookup F32.zero default_seed) in
  let x := RangeContainer.mk 2 F32.zero F32.one in
  m_cellularReturnType s = NoiseLookup
  /\ m_cellularNoiseLookup s = None
  /\ GetCellular2 nearest point_noise (Some (seq 0)) ∅ s x x = (ConfigurationError, s).
Proof.
  intros nearest point_noise typed_kernel s x.
  exact (conj eq_refl (conj eq_refl
           (proj1 (lookup_without_secondary nearest point_noise (Some (seq 0)) typed_kernel
                     ∅ s x x x [x] eq_refl eq_refl)))).
Defined.

(** C5: on one configuration and at one point, the value under return type
    [Distance2Add] is the binary32 sum of the value under [Distance] and
    the value under [Distance2]. *)
Theorem distance2add_is_sum
    (nearest : Z -> CellularDistanceFunction -> list float32 -> cells)
    (point_noise : FastNoiseCL -> list float32 -> float32)
    (h : gmap addr FastNoiseCL) (s : FastNoiseCL) (p : list float32) :
  exists d d2 : float32,
    cellular_at nearest point_noise h (SetCellularReturnType Distance s) p = Some d
    /\ cellular_at nearest point_noise h (SetCellularReturnType Distance2 s) p = Some d2
    /\ cellular_at nearest point_noise h (SetCellularReturnType Distance2Add s) p
       = Some (F32.add d d2).
Proof.
  exists (distance (nearest (m_seed s) (m_cellularDistanceFunction s) (scale (m_frequency s) p))).
  exists (distance2 (nearest (m_seed s) (m_cellularDistanceFunction s) (scale (m_frequency s) p))).
  repeat split.
Qed.

Section Fractal.
Variable primitive : Z -> Interp -> list float32 -> float32.

Lemma single_octave_bounding (s : FastNoiseCL) :
  m_octaves s = 1 -> bounding_ok s -> m_fractalBounding s = F32.one.
Proof.
  intros Ho Hb. rewrite Hb, Ho. apply fractal_bounding_one. lia.
Qed.

Lemma single_octave_sum (s : FastNoiseCL) (p : list float32) :
  m_octaves s = 1 ->
  accumulate
    (fbm_terms primitive (m_interp s) (m_lacunarity s) (m_gain s) (Z.to_nat (m_octaves s))
       (m_seed s) (m_frequency s) F32.one p)
  = F32.mul F32.one (Base primitive s p).
Proof. intros Ho. rewrite Ho. reflexivity. Qed.

Lemma single_octave_FractalFBM (s : FastNoiseCL) (p : list float32) :
  m_octaves s = 1 ->
  bounding_ok s ->
  F32.valid (Base primitive s p) = true ->
  FractalFBM primitive s p = Base primitive s p.
Proof.
  intros Ho Hb Hv. unfold FractalFBM.
  rewrite single_octave_sum by exact Ho.
  rewrite (single_octave_bounding s Ho Hb), F32_mul_one_r; rewrite F32_mul_one_l; auto.
Qed.

End Fractal.

(** C4: for every seed, coordinate and interpolation mode, FBM with one
    octave returns the base primitive's value: the bounding factor of a
    single octave is [1.0f], and the one contribution has amplitude
    [1.0f].  The primitive's value is any binary32 number, NaN and the
    infinities included. *)
Theorem fbm_single_octave
    (primitive : Z -> Interp -> list float32 -> float32)
    (s : FastNoiseCL) (p : list float32) :
  m_octaves s = 1 ->
  bounding_ok s ->
  F32.valid (Base primitive s p) = true ->
  m_fractalBounding s = F32.one
  /\ FractalFBM primitive s p = Base primitive s p.
Proof.
  intros Ho Hb Hv. split.
  - by apply single_octave_bounding.
  - by apply single_octave_FractalFBM.
Qed.

Lemma fbm_single_octave_witness :
  let primitive := fun (seed : Z) (_ : Interp) (q : list float32) =>
                     foldl F32.add (F32.of_Z seed) q in
  let s := SetFractalOctaves 1 (FastNoiseCL_lookup F32.zero default_seed) in
  let p := [F32.c0_45; F32.two] in
  m_octaves s = 1
  /\ bounding_ok s
  /\ F32.valid (Base primitive s p) = true
  /\ FractalFBM primitive s p = Base primitive s p.
Proof.
  intros primitive s p.
  assert (Ho : m_octaves s = 1) by reflexivity.
  assert (Hb : bounding_ok s) by reflexivity.
  assert (Hv : F32.valid (Base primitive s p) = true) by (vm_compute; reflexivity).
  exact (conj Ho (conj Hb (conj Hv (proj2 (fbm_single_octave primitive s p Ho Hb Hv))))).
Defined.

(** The same on the object [SetFractalOctaves(1)] returns. *)
Corollary fbm_after_SetFractalOctaves_1
    (primitive : Z -> Interp -> list float32 -> float32)
    (s : FastNoiseCL) (p : list float32) :
  F32.valid (Base primitive s p) = true ->
  FractalFBM primitive (SetFractalOctaves 1 s) p = Base primitive s p.
Proof.
  intros Hv.
  change (Base primitive s p) with (Base primitive (SetFractalOctaves 1 s) p) in *.
  apply single_octave_FractalFBM; [reflexivity | reflexivity | exact Hv].
Qed.


(** * Further properties of the header's code *)

(** ** The bounding factor at the edges of its domain *)

Section BoundingEdges.

(** The bounding factor for any octave count: the loop adds
    [max 1 u - 1] terms, [u] the count as an unsigned number. *)
Lemma fractal_bounding_general (gain : float32) (octaves : Z) :
  fractal_bounding gain octaves
  = F32.div F32.one (geometric_sum gain (Z.to_nat (Z.max 1 (to_unsigned octaves)))).
Proof.
  destruct (Z_lt_dec (to_unsigned octaves) 1) as [Hlt|Hge].
  - rewrite Z.max_l by lia. unfold fractal_bounding.
    rewrite bounding_loop_exit by lia. reflexivity.
  - rewrite Z.max_r by lia. apply fractal_bounding_unsigned. lia.
Qed.

Lemma to_unsigned_at_least (k octaves : Z) :
  k <= 2 ^ 31 -> in_int octaves -> octaves < 0 \/ k <= octaves -> k <= to_unsigned octaves.
Proof.
  intros Hk [Hmin Hmax] [Hneg|Hge].
  - rewrite to_unsigned_negative by lia. unfold int_min in Hmin. lia.
  - destruct (Z_lt_dec octaves 0).
    + rewrite to_unsigned_negative by lia. unfold int_min in Hmin. lia.
    + rewrite to_unsigned_small by lia. exact Hge.
Qed.

Lemma geometric_sum_succ (gain : float32) (n : nat) :
  geometric_sum gain (S (S n))
  = F32.add (geometric_sum gain (S n)) (power gain (S n)).
Proof. reflexivity. Qed.

Lemma power_succ (gain : float32) (n : nat) :
  power gain (S (S n)) = F32.mul (power gain (S n)) gain.
Proof. reflexivity. Qed.

(** Gain 0.5: the powers underflow to zero and the sum sticks at 2. *)
Lemma power_half_underflow (n : nat) : (150 <= n)%nat -> power F32.half n = F32.zero.
Proof.
  induction 1 as [|n Hn IH].
  - vm_compute. reflexivity.
  - destruct n as [|n]; [lia|]. rewrite power_succ, IH. reflexivity.
Qed.

Lemma geometric_sum_half_first :
  Forall (fun n => geometric_sum F32.half n = F32.two) (seq 25 126).
Proof. apply (bool_decide_unpack _). vm_compute. exact I. Qed.

Lemma geometric_sum_half_saturated (n : nat) :
  (25 <= n)%nat -> geometric_sum F32.half n = F32.two.
Proof.
  intros Hn. destruct (le_lt_dec 151 n) as [Hbig|Hsmall].
  - induction Hbig as [|m Hm IH].
    + vm_compute. reflexivity.
    + destruct m as [|m]; [lia|].
      rewrite geometric_sum_succ, IH, power_half_underflow by lia. reflexivity.
  - pose proof geometric_sum_half_first as Hall.
    rewrite Forall_forall in Hall. apply Hall, elem_of_seq. lia.
Qed.

Lemma fractal_bounding_half_first :
  Forall (fun n => SFleb F32.half (fractal_bounding F32.half (Z.of_nat n)) = true
                   /\ SFleb (fractal_bounding F32.half (Z.of_nat n)) F32.one = true)
         (seq 0 25).
Proof. apply (bool_decide_unpack _). vm_compute. exact I. Qed.

(** Gain zero, of either sign: every power is a zero and the sum stays 1. *)
Lemma power_zero_gain (sg : bool) (n : nat) :
  exists sg', power (S754_zero sg) (S n) = S754_zero sg'.
Proof.
  induction n as [|n [sg' IH]]; [by exists sg|].
  rewrite power_succ, IH. by eexists.
Qed.

Lemma geometric_sum_zero_gain (sg : bool) (n : nat) :
  geometric_sum (S754_zero sg) (S n) = F32.one.
Proof.
  induction n as [|n IH]; [reflexivity|].
  destruct (power_zero_gain sg n) as [sg' Hp].
  rewrite geometric_sum_succ, IH, Hp. reflexivity.
Qed.

(** A NaN gain, and an infinite one, take over the sum with the first
    term added. *)
Lemma power_nan (n : nat) : power S754_nan (S n) = S754_nan.
Proof. induction n as [|n IH]; [reflexivity|]. rewrite power_succ, IH. reflexivity. Qed.

Lemma geometric_sum_nan (n : nat) : geometric_sum S754_nan (S (S n)) = S754_nan.
Proof.
  induction n as [|n IH]; [reflexivity|].
  rewrite geometric_sum_succ, IH. reflexivity.
Qed.

Lemma power_infinity (n : nat) :
  power (S754_infinity false) (S n) = S754_infinity false.
Proof. induction n as [|n IH]; [reflexivity|]. rewrite power_succ, IH. reflexivity. Qed.

Lemma geometric_sum_infinity (n : nat) :
  geometric_sum (S754_infinity false) (S (S n)) = S754_infinity false.
Proof.
  induction n as [|n IH]; [reflexivity|].
  rewrite geometric_sum_succ, IH, power_infinity. reflexivity.
Qed.

End BoundingEdges.

(** X1: a negative octave count is compared as an unsigned number: for an
    [int] count below zero the loop of [CalculateFractalBounding] does not
    stop at once but adds [octaves + 2^32] terms (for -1, 4294967295 of
    them), and the bounding factor is the reciprocal of that sum. *)
Theorem negative_octaves_wrap (gain : float32) (octaves : Z) :
  in_int octaves ->
  octaves < 0 ->
  to_unsigned octaves = octaves + 2 ^ 32
  /\ fractal_bounding gain octaves
     = F32.div F32.one (geometric_sum gain (Z.to_nat (octaves + 2 ^ 32))).
Proof.
  intros Hint Hneg. split.
  - apply to_unsigned_negative. destruct Hint. lia.
  - by apply fractal_bounding_negative.
Qed.

Lemma negative_octaves_wrap_witness :
  in_int (-1) /\ -1 < 0 /\ to_unsigned (-1) = -1 + 2 ^ 32.
Proof.
  assert (H1 : in_int (-1)) by (unfold in_int, int_min, int_max; lia).
  assert (H2 : -1 < 0) by lia.
  exact (conj H1 (conj H2 (proj1 (negative_octaves_wrap F32.half (-1) H1 H2)))).
Defined.

(** X2: with the default gain 0.5 the bounding factor lies between 0.5 and
    1 for every [int] octave count, the negative ones included. *)
Theorem default_gain_bounds (octaves : Z) :
  in_int octaves ->
  SFleb F32.half (fractal_bounding F32.half octaves) = true
  /\ SFleb (fractal_bounding F32.half octaves) F32.one = true.
Proof.
  intros Hint. destruct (Z_lt_dec octaves 0) as [Hneg|Hpos];
    [|destruct (Z_lt_dec octaves 25) as [Hsmall|Hbig]].
  - rewrite fractal_bounding_general, geometric_sum_half_saturated; [by vm_compute|].
    pose proof (to_unsigned_at_least 25 octaves ltac:(lia) Hint (or_introl Hneg)). lia.
  - pose proof fractal_bounding_half_first as Hall. rewrite Forall_forall in Hall.
    specialize (Hall (Z.to_nat octaves)). rewrite Z2Nat.id in Hall by lia.
    apply Hall, elem_of_seq. lia.
  - rewrite fractal_bounding_general, geometric_sum_half_saturated; [by vm_compute|].
    assert (Hge : 25 <= octaves) by lia.
    pose proof (to_unsigned_at_least 25 octaves ltac:(lia) Hint (or_intror Hge)). lia.
Qed.

Lemma default_gain_bounds_witness :
  in_int 7
  /\ SFleb F32.half (fractal_bounding F32.half 7) = true
  /\ SFleb (fractal_bounding F32.half 7) F32.one = true.
Proof.
  assert (H : in_int 7) by (unfold in_int, int_min, int_max; lia).
  exact (conj H (default_gain_bounds 7 H)).
Defined.

(** X3: with the default gain 0.5 the sum of the amplitudes reaches 2.0f
    at 25 octaves and stays there, so the bounding factor is exactly 0.5f
    for every octave count from 25 on, and for every negative one. *)
Theorem default_gain_saturates (octaves : Z) :
  in_int octaves ->
  octaves < 0 \/ 25 <= octaves ->
  fractal_bounding F32.half octaves = F32.half.
Proof.
  intros Hint Hrange.
  rewrite fractal_bounding_general, geometric_sum_half_saturated; [by vm_compute|].
  pose proof (to_unsigned_at_least 25 octaves ltac:(lia) Hint Hrange). lia.
Qed.

Lemma default_gain_saturates_witness :
  in_int 1000 /\ (1000 < 0 \/ 25 <= 1000) /\ fractal_bounding F32.half 1000 = F32.half.
Proof.
  assert (H1 : in_int 1000) by (unfold in_int, int_min, int_max; lia).
  assert (H2 : 1000 < 0 \/ 25 <= 1000) by (right; lia).
  exact (conj H1 (conj H2 (default_gain_saturates 1000 H1 H2))).
Defined.

(** X4: with a gain of zero, of either sign, the bounding factor is
    exactly 1.0f for every octave count whatsoever. *)
Theorem zero_gain_bounding (sg : bool) (octaves : Z) :
  fractal_bounding (S754_zero sg) octaves = F32.one.
Proof.
  rewrite fractal_bounding_general.
  destruct (Z.to_nat (Z.max 1 (to_unsigned octaves))) as [|n] eqn:Hn; [lia|].
  rewrite geometric_sum_zero_gain. apply F32_div_one_one.
Qed.

(** X5: the setters do not reject a gain that is not a number: with two
    octaves or more (or a negative count) a NaN gain makes the bounding
    factor NaN, and an infinite positive gain makes it zero. *)
Theorem nonfinite_gain_bounding (octaves : Z) (s : FastNoiseCL) :
  in_int octaves ->
  octaves < 0 \/ 2 <= octaves ->
  m_fractalBounding (SetFractalGain S754_nan (SetFractalOctaves octaves s)) = S754_nan
  /\ m_fractalBounding (SetFractalGain (S754_infinity false) (SetFractalOctaves octaves s))
     = S754_zero false.
Proof.
  intros Hint Hrange.
  pose proof (to_unsigned_at_least 2 octaves ltac:(lia) Hint Hrange) as Hu.
  cbn [SetFractalGain SetFractalOctaves CalculateFractalBounding m_fractalBounding
       m_gain m_octaves].
  rewrite !fractal_bounding_general.
  destruct (Z.to_nat (Z.max 1 (to_unsigned octaves))) as [|[|n]] eqn:Hn; [lia|lia|].
  rewrite geometric_sum_nan, geometric_sum_infinity. split; reflexivity.
Qed.

Lemma nonfinite_gain_bounding_witness :
  let s := FastNoiseCL_lookup F32.zero default_seed in
  in_int 3 /\ (3 < 0 \/ 2 <= 3)
  /\ m_fractalBounding (SetFractalGain S754_nan (SetFractalOctaves 3 s)) = S754_nan.
Proof.
  intros s.
  assert (H1 : in_int 3) by (unfold in_int, int_min, int_max; lia).
  assert (H2 : 3 < 0 \/ 2 <= 3) by (right; lia).
  exact (conj H1 (conj H2 (proj1 (nonfinite_gain_bounding 3 s H1 H2)))).
Defined.

(** ** How the setters compose *)

Section SetterAlgebra.

(** An object whose cached bounding factor is right is a fixed point of
    [CalculateFractalBounding]. *)
Lemma CalculateFractalBounding_fixed (s : FastNoiseCL) :
  bounding_ok s -> CalculateFractalBounding s = s.
Proof.
  intros Hb. destruct s. unfold bounding_ok in Hb. cbn in Hb.
  unfold CalculateFractalBounding. cbn. by rewrite <- Hb.
Qed.

(** Calls that do not touch the lookup reference leave it as it is. *)
Lemma run_all_lookup (calls : list call) (s : FastNoiseCL) :
  Forall (fun c => own_field c <> F_cellularNoiseLookup) calls ->
  m_cellularNoiseLookup (run_all calls s) = m_cellularNoiseLookup s.
Proof.
  revert s. induction calls as [|c calls IH]; intros s Hall; [reflexivity|].
  apply Forall_cons in Hall as [Hc Hall]. cbn [run_all foldl].
  fold (run_all calls (run c s)). rewrite IH by exact Hall.
  destruct c; try reflexivity. by destruct Hc.
Qed.

End SetterAlgebra.

(** X6: setters of different fields commute: calling them in either order
    leaves the same object.  This includes [SetFractalOctaves] and
    [SetFractalGain], which both rewrite the bounding factor. *)
Theorem setters_commute (c1 c2 : call) (s : FastNoiseCL) :
  own_field c1 <> own_field c2 ->
  run c1 (run c2 s) = run c2 (run c1 s).
Proof.
  intros Hne. destruct c1, c2; try reflexivity; by destruct Hne.
Qed.

Lemma setters_commute_witness :
  let s := FastNoiseCL_lookup F32.zero default_seed in
  own_field (CallSetFractalOctaves 5) <> own_field (CallSetFractalGain F32.c0_45)
  /\ SetFractalOctaves 5 (SetFractalGain F32.c0_45 s)
     = SetFractalGain F32.c0_45 (SetFractalOctaves 5 s).
Proof.
  intros s.
  assert (H : own_field (CallSetFractalOctaves 5) <> own_field (CallSetFractalGain F32.c0_45))
    by discriminate.
  exact (conj H (setters_commute (CallSetFractalOctaves 5) (CallSetFractalGain F32.c0_45) s H)).
Defined.

(** X7: the last call of a setter wins: a call of the same setter before
    it leaves no trace, not even in the bounding factor. *)
Theorem setter_overwrites (c1 c2 : call) (s : FastNoiseCL) :
  own_field c1 = own_field c2 ->
  run c1 (run c2 s) = run c1 s.
Proof.
  intros Heq. destruct c1, c2; try reflexivity; discriminate Heq.
Qed.

Lemma setter_overwrites_witness :
  let s := FastNoiseCL_lookup F32.zero default_seed in
  own_field (CallSetFractalOctaves 5) = own_field (CallSetFractalOctaves (-7))
  /\ SetFractalOctaves 5 (SetFractalOctaves (-7) s) = SetFractalOctaves 5 s.
Proof.
  intros s.
  exact (conj eq_refl
           (setter_overwrites (CallSetFractalOctaves 5) (CallSetFractalOctaves (-7)) s eq_refl)).
Defined.

(** X8: on an object obtained from a constructor by any sequence of setter
    calls, setting the octave count, or the gain, to the value it already
    has changes nothing; setting the perturb amplitude to the stored
    value does not have this property, since the setter rescales it. *)
Theorem reset_current_value (calls : list call) (indeterminate : float32) (seed : Z) :
  let s := run_all calls (FastNoiseCL_lookup indeterminate seed) in
  SetFractalOctaves (m_octaves s) s = s
  /\ SetFractalGain (m_gain s) s = s
  /\ m_perturbAmp
       (SetPerturbAmp (m_perturbAmp (FastNoiseCL_lookup indeterminate seed))
          (FastNoiseCL_lookup indeterminate seed))
     <> m_perturbAmp (FastNoiseCL_lookup indeterminate seed).
Proof.
  intros s.
  assert (Hb : bounding_ok s)
    by apply run_all_preserves_bounding_ok, CalculateFractalBounding_ok.
  split; [|split].
  - rewrite <- (CalculateFractalBounding_fixed s Hb) at 3. by destruct s.
  - rewrite <- (CalculateFractalBounding_fixed s Hb) at 3. by destruct s.
  - vm_compute. discriminate.
Qed.



(** ** What destruction releases *)

Section Chains.

(** A chain in a store is a chain in every larger store. *)
Lemma lookup_chain_weaken (h h' : gmap addr FastNoiseCL) (l : list addr) :
  h ⊆ h' -> forall p, lookup_chain h p l -> lookup_chain h' p l.
Proof.
  intros Hsub. induction l as [|a l IH]; intros p; [done|].
  intros (-> & o & Ha & Hl). split; [done|]. exists o. split.
  - by eapply lookup_weaken.
  - by apply IH.
Qed.

(** Releasing an object that is not on a chain leaves the chain alone. *)
Lemma lookup_chain_delete (h : gmap addr FastNoiseCL) (b : addr) (l : list addr) :
  b ∉ l -> forall p, lookup_chain h p l -> lookup_chain (delete b h) p l.
Proof.
  induction l as [|a l IH]; intros Hb p; [done|].
  apply not_elem_of_cons in Hb as [Hne Hb].
  intros (-> & o & Ha & Hl). split; [done|]. exists o. split.
  - by rewrite lookup_delete_ne.
  - by apply IH.
Qed.

(** The chain that starts at a pointer is unique. *)
Lemma lookup_chain_unique (h : gmap addr FastNoiseCL) (l1 : list addr) :
  forall p l2, lookup_chain h p l1 -> lookup_chain h p l2 -> l1 = l2.
Proof.
  induction l1 as [|a l1 IH]; intros p [|b l2]; cbn.
  - done.
  - intros -> [? _]. discriminate.
  - intros [-> _] ?. discriminate.
  - intros (-> & o & Ha & Hl) (Hb & o' & Ha' & Hl'). injection Hb as <-.
    rewrite Ha in Ha'. injection Ha' as <-. f_equal. by eapply IH.
Qed.

Lemma lookup_chain_suffix (h : gmap addr FastNoiseCL) (l1 : list addr) :
  forall p a l2, lookup_chain h p (l1 ++ a :: l2) -> lookup_chain h (Some a) (a :: l2).
Proof.
  induction l1 as [|b l1 IH]; intros p a l2; cbn.
  - intros (-> & o & Ha & Hl). split; [done|]. by exists o.
  - intros (-> & o & Ha & Hl). by eapply IH.
Qed.

(** A chain never visits an address twice. *)
Lemma lookup_chain_NoDup (h : gmap addr FastNoiseCL) (l : list addr) :
  forall p, lookup_chain h p l -> NoDup l.
Proof.
  induction l as [|a l IH]; intros p Hc; [constructor|].
  pose proof Hc as (-> & o & Ha & Hl). constructor; [|by eapply IH].
  intros Hin. apply list_elem_of_split in Hin as (l1 & l2 & ->).
  pose proof (lookup_chain_suffix h l1 _ a l2 Hl) as Hs.
  pose proof (lookup_chain_unique h _ _ _ Hc Hs) as Heq.
  apply (f_equal length) in Heq. cbn in Heq. rewrite length_app in Heq. cbn in Heq. lia.
Qed.

(** Deleting along a chain releases the chain. *)
Lemma delete_FastNoiseCL_chain (l : list addr) :
  forall (h : gmap addr FastNoiseCL) (p : option addr),
    lookup_chain h p l -> delete_FastNoiseCL h p = Some (release h l).
Proof.
  induction l as [|a l IH]; intros h p Hc.
  - cbn in Hc. subst p. by simp delete_FastNoiseCL.
  - pose proof (lookup_chain_NoDup h _ _ Hc) as Hnd. apply NoDup_cons in Hnd as [Hnin _].
    destruct Hc as (-> & o & Ha & Hl).
    rewrite (delete_FastNoiseCL_live h a o Ha).
    apply IH. by apply lookup_chain_delete.
Qed.

(** A deletion that is defined went along a chain. *)
Lemma delete_FastNoiseCL_has_chain (n : nat) :
  forall (h h' : gmap addr FastNoiseCL) (p : option addr),
    (size h <= n)%nat ->
    delete_FastNoiseCL h p = Some h' ->
    exists l, lookup_chain h p l.
Proof.
  induction n as [|n IH]; intros h h' [a|] Hn Hd; try (by exists []).
  - apply Nat.le_0_r, map_size_empty_iff in Hn. subst h.
    rewrite delete_FastNoiseCL_dangling in Hd by apply lookup_empty. discriminate.
  - destruct (h !! a) as [o|] eqn:Ha.
    + rewrite (delete_FastNoiseCL_live h a o Ha) in Hd.
      apply IH in Hd as [l Hl].
      * exists (a :: l). split; [done|]. exists o. split; [done|].
        eapply lookup_chain_weaken; [apply delete_subseteq | exact Hl].
      * rewrite map_size_delete, Ha. simpl. lia.
    + rewrite delete_FastNoiseCL_dangling in Hd by exact Ha. discriminate.
Qed.

End Chains.

(** X10: the destructor is defined exactly when the lookup references
    form a finite chain of live objects that ends in a null reference, and
    it then releases every object of the chain and nothing else. *)
Theorem destroy_releases_chain (h h' : gmap addr FastNoiseCL) (this : FastNoiseCL) :
  destroy_FastNoiseCL h this = Some h'
  <-> exists l, lookup_chain h (m_cellularNoiseLookup this) l /\ h' = release h l.
Proof.
  unfold destroy_FastNoiseCL. split.
  - intros Hd.
    destruct (delete_FastNoiseCL_has_chain (size h) h h' _ (le_n _) Hd) as [l Hl].
    exists l. split; [exact Hl|].
    rewrite (delete_FastNoiseCL_chain l h _ Hl) in Hd. by injection Hd.
  - intros (l & Hl & ->). by apply delete_FastNoiseCL_chain.
Qed.

(** X11: two configurations that were given the same lookup instance
    cannot both be destroyed: the first destruction releases the
    instance, and the second deletes a pointer to no live object. *)
Theorem shared_lookup_double_delete
    (h h' : gmap addr FastNoiseCL) (s1 s2 : FastNoiseCL) (a : addr) :
  destroy_FastNoiseCL h (SetCellularNoiseLookup (Some a) s1) = Some h' ->
  h' !! a = None
  /\ destroy_FastNoiseCL h' (SetCellularNoiseLookup (Some a) s2) = None.
Proof.
  unfold destroy_FastNoiseCL. cbn [SetCellularNoiseLookup m_cellularNoiseLookup].
  intros Hd. apply delete_FastNoiseCL_released in Hd.
  split; [exact Hd | by apply delete_FastNoiseCL_dangling].
Qed.

Lemma shared_lookup_double_delete_witness :
  let h : gmap addr FastNoiseCL := {[ 2%positive := FastNoiseCL_lookup F32.zero 2 ]} in
  let s1 := FastNoiseCL_lookup F32.zero 1 in
  let s2 := FastNoiseCL_lookup F32.zero 3 in
  destroy_FastNoiseCL h (SetCellularNoiseLookup (Some 2%positive) s1) = Some ∅
  /\ destroy_FastNoiseCL ∅ (SetCellularNoiseLookup (Some 2%positive) s2) = None.
Proof.
  intros h s1 s2.
  assert (H : destroy_FastNoiseCL h (SetCellularNoiseLookup (Some 2%positive) s1) = Some ∅)
    by (vm_compute; reflexivity).
  exact (conj H (proj2 (shared_lookup_double_delete h ∅ s1 s2 2%positive H))).
Defined.

(** X12: a heap-allocated configuration that is its own lookup instance
    cannot be deleted: its destructor deletes the object being
    destroyed. *)
Theorem self_lookup_delete (h : gmap addr FastNoiseCL) (a : addr) (o : FastNoiseCL) :
  h !! a = Some (SetCellularNoiseLookup (Some a) o) ->
  delete_FastNoiseCL h (Some a) = None.
Proof.
  intros Ha. rewrite (delete_FastNoiseCL_live h a _ Ha).
  cbn [SetCellularNoiseLookup m_cellularNoiseLookup].
  apply delete_FastNoiseCL_dangling, lookup_delete_eq.
Qed.

Lemma self_lookup_delete_witness :
  let o := FastNoiseCL_lookup F32.zero 2 in
  let h : gmap addr FastNoiseCL := {[ 2%positive := SetCellularNoiseLookup (Some 2%positive) o ]} in
  h !! 2%positive = Some (SetCellularNoiseLookup (Some 2%positive) o)
  /\ delete_FastNoiseCL h (Some 2%positive) = None.
Proof.
  intros o h.
  assert (H : h !! 2%positive = Some (SetCellularNoiseLookup (Some 2%positive) o))
    by (vm_compute; reflexivity).
  exact (conj H (self_lookup_delete h 2%positive o H)).
Defined.

(** X13: a configuration on which [SetCellularNoiseLookup] was never
    called releases nothing when it is destroyed, whatever other setters
    were called and whatever the free store holds. *)
Theorem destroy_without_lookup
    (h : gmap addr FastNoiseCL) (calls : list call) (indeterminate : float32) (seed : Z) :
  Forall (fun c => own_field c <> F_cellularNoiseLookup) calls ->
  destroy_FastNoiseCL h (run_all calls (FastNoiseCL_lookup indeterminate seed)) = Some h.
Proof.
  intros Hall. unfold destroy_FastNoiseCL.
  rewrite (run_all_lookup calls _ Hall). cbn. by simp delete_FastNoiseCL.
Qed.

Lemma destroy_without_lookup_witness :
  let h : gmap addr FastNoiseCL := {[ 2%positive := FastNoiseCL_lookup F32.zero 2 ]} in
  let calls := [CallSetCellularReturnType NoiseLookup; CallSetFractalOctaves 4] in
  Forall (fun c => own_field c <> F_cellularNoiseLookup) calls
  /\ destroy_FastNoiseCL h (run_all calls (FastNoiseCL_lookup F32.zero default_seed)) = Some h.
Proof.
  intros h calls.
  assert (H : Forall (fun c => own_field c <> F_cellularNoiseLookup) calls)
    by (repeat constructor; discriminate).
  exact (conj H (destroy_without_lookup h calls F32.zero default_seed H)).
Defined.

(** ** The perturb amplitude at the edges of binary32 *)

Section PerturbAmp.

(** Rounding to nearest is symmetric in the sign. *)
Lemma binary_round_aux_negb (sx : bool) (m e : Z) (l : location) :
  binary_round_aux F32.prec F32.emax (negb sx) m e l
  = SFopp (binary_round_aux F32.prec F32.emax sx m e l).
Proof.
  unfold binary_round_aux.
  destruct (shr_fexp F32.prec F32.emax m e l) as [mrs e'].
  destruct (shr_fexp F32.prec F32.emax _ e' loc_Exact) as [mrs' e''].
  destruct (shr_m mrs'); [reflexivity | | reflexivity].
  destruct (e'' <=? F32.emax - F32.prec); reflexivity.
Qed.

Lemma div_opp_l (x y : float32) : F32.div (SFopp x) y = SFopp (F32.div x y).
Proof.
  destruct x as [sx|sx| |sx mx ex], y as [sy|sy| |sy my ey];
    try reflexivity; try (cbn; by destruct sx, sy).
  unfold F32.div, SFdiv, SFopp.
  destruct (SFdiv_core_binary F32.prec F32.emax (Z.pos mx) ex (Z.pos my) ey) as [[mz ez] lz].
  replace (xorb (negb sx) sy) with (negb (xorb sx sy)) by (by destruct sx, sy).
  apply binary_round_aux_negb.
Qed.

End PerturbAmp.

(** X14: [SetPerturbAmp] is odd: the amplitude stored for [-a] is the
    negation of the amplitude stored for [a], for every [a]. *)
Theorem SetPerturbAmp_odd (a : float32) (s : FastNoiseCL) :
  m_perturbAmp (SetPerturbAmp (SFopp a) s) = SFopp (m_perturbAmp (SetPerturbAmp a s)).
Proof. cbn [SetPerturbAmp m_perturbAmp]. apply div_opp_l. Qed.

(** X15: [SetPerturbAmp] passes the special values on unchecked: a zero
    is stored as the zero of the same sign, an infinity as the infinity of
    the same sign, NaN as NaN; and since the argument is divided by a
    number below 1, the largest finite amplitude, [FLT_MAX], is stored as
    positive infinity. *)
Theorem SetPerturbAmp_special (sg : bool) (s : FastNoiseCL) :
  m_perturbAmp (SetPerturbAmp (S754_zero sg) s) = S754_zero sg
  /\ m_perturbAmp (SetPerturbAmp (S754_infinity sg) s) = S754_infinity sg
  /\ m_perturbAmp (SetPerturbAmp S754_nan s) = S754_nan
  /\ m_perturbAmp (SetPerturbAmp max_float32 s) = S754_infinity false.
Proof.
  split; [by destruct sg | split; [by destruct sg | split]]; vm_compute; reflexivity.
Qed.

(** ** Construction *)

(** X16: construction leaves nothing uninitialised: [m_fractalBounding],
    the one data member without an initialiser, is assigned before it is
    read, so the object either constructor builds does not depend on the
    indeterminate value the member starts with. *)
Theorem construction_initialises {Device : Type}
    (PrepareDevice : Device -> FastNoiseCL -> FastNoiseCL)
    (indeterminate1 indeterminate2 : float32) (device : Device) (seed : Z) :
  FastNoiseCL_lookup indeterminate1 seed = FastNoiseCL_lookup indeterminate2 seed
  /\ FastNoiseCL_generator Device PrepareDevice indeterminate1 device seed
     = FastNoiseCL_generator Device PrepareDevice indeterminate2 device seed
  /\ bounding_ok (FastNoiseCL_lookup indeterminate1 seed)
  /\ m_fractalBounding (FastNoiseCL_lookup indeterminate1 seed)
     = fractal_bounding F32.half 3.
Proof. repeat split. Qed.
